(** * react-table: the filtering and pagination core of [ReactTable]

    A shallow embedding of the logic of [src/index.tsx].  The source file
    holds two versions of the component.  Both share the filtering effect,
    [getFilters], [getRowKey] and [parseData]; the first one adds pagination,
    per-filter [onFilterChange] handlers and an optional global search box,
    the second one decides column visibility with the [falsy] array.

    Modelling conventions.
    - JavaScript values are the primitives a row can hold.  Numbers are the
      integers, [NaN] and the two infinities; [String] of an integer is its
      decimal numeral, which is what ECMAScript prints for the integers a
      number holds exactly, those of magnitude below 2^53 ([isSafeInteger]).
      Statements that depend on the numeral carry that bound.
    - Strings are [string]s of 8-bit characters; [toLowerCase] lowers the
      letters [A]-[Z].
    - An object is the list of its own properties in enumeration order, that
      is the order [Object.keys] returns.  Reading a property the object
      lacks gives [undefined]; JavaScript does so for every name but those
      [Object.prototype] defines ([isInheritedName]), and statements about
      an absent property exclude these names.  A property added by a spread
      is enumerated last; JavaScript does so for every key but the integer
      ones ([isIntegerKey]), which it enumerates first in ascending order,
      and statements about the place of a new key exclude these keys.
    - Expressions that can raise return a [result]. *)

From Stdlib Require Import ZArith List String Ascii Bool Lia.
From Stdlib Require Import QArith Qround DecimalString.
From Stdlib Require DecimalFacts DecimalZ.
Import ListNotations.

Open Scope string_scope.
Open Scope list_scope.
Open Scope Z_scope.

(** ** JavaScript values *)

Inductive number : Type :=
| Finite (z : Z)
| NaN
| Infinity (negative : bool).

Inductive value : Type :=
| VUndefined
| VNull
| VBool (b : bool)
| VNum (n : number)
| VStr (s : string).

(** [Number.prototype.toString] on the modelled numbers; for an integer,
    the decimal numeral, exact below 2^53 in magnitude. *)
Definition Number_toString (n : number) : string :=
  match n with
  | Finite z => NilZero.string_of_int (Z.to_int z)
  | NaN => "NaN"
  | Infinity false => "Infinity"
  | Infinity true => "-Infinity"
  end.

(** [String(v)]. *)
Definition js_String (v : value) : string :=
  match v with
  | VUndefined => "undefined"
  | VNull => "null"
  | VBool true => "true"
  | VBool false => "false"
  | VNum n => Number_toString n
  | VStr s => s
  end.

(** [Boolean(v)], which is also [!!v]. *)
Definition js_Boolean (v : value) : bool :=
  match v with
  | VUndefined | VNull => false
  | VBool b => b
  | VNum (Finite z) => negb (z =? 0)
  | VNum NaN => false
  | VNum (Infinity _) => true
  | VStr s => negb (s =? "")%string
  end.

Definition number_eqb (m n : number) : bool :=
  match m, n with
  | Finite a, Finite b => a =? b
  | Infinity a, Infinity b => Bool.eqb a b
  | _, _ => false
  end.

(** [x === y]: [NaN] differs from itself. *)
Definition strictEquals (x y : value) : bool :=
  match x, y with
  | VUndefined, VUndefined => true
  | VNull, VNull => true
  | VBool a, VBool b => Bool.eqb a b
  | VNum m, VNum n => number_eqb m n
  | VStr s, VStr t => (s =? t)%string
  | _, _ => false
  end.

(** SameValueZero, the comparison of [Array.prototype.includes]. *)
Definition sameValueZero (x y : value) : bool :=
  match x, y with
  | VNum NaN, VNum NaN => true
  | _, _ => strictEquals x y
  end.

(** ** Strings *)

Definition lowerChar (c : ascii) : ascii :=
  let n := nat_of_ascii c in
  if ((65 <=? n) && (n <=? 90))%nat then ascii_of_nat (n + 32) else c.

(** [s.toLowerCase()]. *)
Fixpoint toLowerCase (s : string) : string :=
  match s with
  | EmptyString => EmptyString
  | String c r => String (lowerChar c) (toLowerCase r)
  end.

(** [s.includes(t)]: [t] occurs in [s] at some position. *)
Fixpoint includes (s t : string) : bool :=
  prefix t s ||
  match s with
  | EmptyString => false
  | String _ r => includes r t
  end.

(** ** Raising computations *)

Inductive exn : Type := TypeError | RangeError.

Inductive result (A : Type) : Type :=
| Ok (a : A)
| Throw (e : exn).

Arguments Ok {A} a.
Arguments Throw {A} e.

Definition bind {A B : Type} (r : result A) (k : A -> result B) : result B :=
  match r with
  | Ok a => k a
  | Throw e => Throw e
  end.

Notation "x <- r ;; k" := (bind r (fun x => k))
  (at level 61, r at next level, right associativity).

(** ** Objects *)

Definition object : Type := list (string * value).

Definition Object_keys (o : object) : list string := map fst o.

(** [o[k]] for an own property, and [undefined] without one (inherited
    members of [Object.prototype] are not read). *)
Fixpoint get (o : object) (k : string) : value :=
  match o with
  | [] => VUndefined
  | (k', v) :: r => if (k' =? k)%string then v else get r k
  end.

(** [{ ...o, [k]: v }]: an existing property keeps its place, a new one is
    enumerated last (the place JavaScript gives to a key that is not an
    integer key). *)
Fixpoint spreadSet (o : object) (k : string) (v : value) : object :=
  match o with
  | [] => [(k, v)]
  | (k', v') :: r =>
      if (k' =? k)%string then (k, v) :: r else (k', v') :: spreadSet r k v
  end.

(** ** Arrays *)

(** [l.every(f)], [l.some(f)] and [l.filter(f)] for a callback that can
    raise; the callback runs left to right and [every] and [some] stop at
    the first deciding element. *)
Fixpoint Array_every {A : Type} (f : A -> result bool) (l : list A) : result bool :=
  match l with
  | [] => Ok true
  | x :: r => b <- f x ;; if b : bool then Array_every f r else Ok false
  end.

Fixpoint Array_some {A : Type} (f : A -> result bool) (l : list A) : result bool :=
  match l with
  | [] => Ok false
  | x :: r => b <- f x ;; if b : bool then Ok true else Array_some f r
  end.

Fixpoint Array_filter {A : Type} (f : A -> result bool) (l : list A) : result (list A) :=
  match l with
  | [] => Ok []
  | x :: r =>
      b <- f x ;;
      kept <- Array_filter f r ;;
      Ok (if b : bool then x :: kept else kept)
  end.

(** [l.includes(v)]. *)
Definition Array_includes (l : list value) (v : value) : bool :=
  existsb (fun x => sameValueZero x v) l.

(** [l.slice(start, end)] with integer arguments: a negative index counts
    from the end, both indices are clamped to the length. *)
Definition Array_slice {A : Type} (l : list A) (start finish : Z) : list A :=
  let len := Z.of_nat (List.length l) in
  let k := if start <? 0 then Z.max (len + start) 0 else Z.min start len in
  let final := if finish <? 0 then Z.max (len + finish) 0 else Z.min finish len in
  firstn (Z.to_nat (final - k)) (skipn (Z.to_nat k) l).

(** [Array.from(Array(n).keys())]: the indices [0 .. n-1]; [Array(n)] raises
    a RangeError unless [n] is a non-negative integer. *)
Definition Array_keys (n : number) : result (list Z) :=
  match n with
  | Finite z => if z <? 0 then Throw RangeError
                else Ok (map Z.of_nat (seq 0 (Z.to_nat z)))
  | _ => Throw RangeError
  end.

(** [Math.floor(a / b)] for integers [a] and [b]: the quotient is the exact
    rational, and dividing by zero gives an infinity or [NaN]. *)
Definition Math_floor_div (a b : Z) : number :=
  if b =? 0 then
    if a =? 0 then NaN else Infinity (a <? 0)
  else Finite (Qfloor (inject_Z a / inject_Z b)).

(** ** Props and state of the component *)

(** A column.  [visible] is any value in the second version of the
    component ([visible?: any]); an absent attribute reads [undefined].
    The [render] function takes no part in the logic below. *)
Record Column : Type := mkColumn {
  title : string;
  key : string;
  columnDataIndex : string;
  visible : value
}.

(** A filter.  [onFilterChange], when given, is the caller's handler; it is
    called with the new value, the key and the updated filter values, and it
    can raise like any callback. *)
Record Filter : Type := mkFilter {
  type : string;
  dataIndex : string;
  onFilterChange : option (value -> string -> object -> result unit)
}.

Record Pagination : Type := mkPagination {
  currentPage : Z;
  pageLength : Z
}.

(** ** Logic shared by the two versions *)

(** [getFilters()]: the [filters] prop, or an empty array without it. *)
Definition getFilters (filters : option (list Filter)) : list Filter :=
  match filters with
  | Some fs => fs
  | None => []
  end.

(** [getFilters().filter(item => item.dataIndex === filter)[0]]. *)
Definition filterData (filters : option (list Filter)) (filter : string) : option Filter :=
  hd_error (List.filter (fun item => (dataIndex item =? filter)%string) (getFilters filters)).

(** The type the switch dispatches on: that of the filter found, or
    ['globalSearch'] when [filterData] is undefined. *)
Definition filterType (filters : option (list Filter)) (filter : string) : string :=
  match filterData filters filter with
  | Some fd => type fd
  | None => "globalSearch"
  end.

(** [appliedFilter.toLowerCase()]: the method exists on strings only. *)
Definition call_toLowerCase (v : value) : result string :=
  match v with
  | VStr s => Ok (toLowerCase s)
  | _ => Throw TypeError
  end.

(** The callback of [Object.keys(appliedFilters).every(...)]: whether [item]
    matches the applied filter named [filter]. *)
Definition matchFilter (filters : option (list Filter)) (appliedFilters : object)
    (item : object) (filter : string) : result bool :=
  let appliedFilter := get appliedFilters filter in
  let t := filterType filters filter in
  if (t =? "select")%string then
    Ok (js_String (get item filter) =? js_String appliedFilter)%string
  else if (t =? "input")%string then
    Ok (includes (toLowerCase (js_String (get item filter)))
                 (toLowerCase (js_String appliedFilter)))
  else if (t =? "toggle")%string then
    Ok (Bool.eqb (js_Boolean (get item filter)) (js_Boolean appliedFilter))
  else
    Array_some
      (fun k =>
         needle <- call_toLowerCase appliedFilter ;;
         Ok (includes (toLowerCase (js_String (get item k))) needle))
      (Object_keys item).

(** The callback of [data.filter(...)]: every applied filter matches. *)
Definition rowPasses (filters : option (list Filter)) (appliedFilters : object)
    (item : object) : result bool :=
  Array_every (matchFilter filters appliedFilters item) (Object_keys appliedFilters).

(** The filtering effect: the rows handed to [setData]. *)
Definition filteredData (data : list object) (filters : option (list Filter))
    (appliedFilters : object) : result (list object) :=
  Array_filter (rowPasses filters appliedFilters) data.

(** [getRowKey(item)]. *)
Definition getRowKey (rowKey : option string) (item : object) : value :=
  let fallback :=
    if js_Boolean (get item "key") then get item "key" else VNull in
  match rowKey with
  | Some k => if js_Boolean (VStr k) then get item k else fallback
  | None => fallback
  end.

(** [parseData(data)]. *)
Definition parseData (data : value) : string :=
  match data with
  | VBool true => "True"
  | VBool false => "False"
  | _ => js_String data
  end.

(** ** The version with pagination *)

Module Paginated.

Record State : Type := mkState {
  renderData : list object;
  localColumns : list Column;
  appliedFilters : object;
  filterValues : object;
  pageData : Pagination
}.

(** [handleFilterChange(filterValue, key)]: the state after the call and
    how the call ended.  The update of [filterValues] is requested before
    [filterData.onFilterChange] is read, so it stands even when that read
    raises. *)
Definition handleFilterChange (filters : option (list Filter)) (st : State)
    (filterValue : value) (k : string) : State * result unit :=
  let st1 :=
    mkState (renderData st) (localColumns st) (appliedFilters st)
            (spreadSet (filterValues st) k filterValue) (pageData st) in
  match filterData filters k with
  | None => (st1, Throw TypeError)
  | Some fd =>
      match onFilterChange fd with
      | Some handler =>
          (st1, handler filterValue k (spreadSet (filterValues st) k filterValue))
      | None =>
          (mkState (renderData st1) (localColumns st1)
                   (spreadSet (appliedFilters st1) k filterValue)
                   (filterValues st1) (pageData st1),
           Ok tt)
      end
  end.

(** [clearFilters()]. *)
Definition clearFilters (st : State) : State :=
  mkState (renderData st) (localColumns st) [] [] (pageData st).

(** [paginatedData]. *)
Definition paginatedData (renderData : list object) (pageData : Pagination) : list object :=
  Array_slice renderData
    ((currentPage pageData - 1) * pageLength pageData)
    (pageLength pageData * currentPage pageData).

(** [setPageNumber(page)]. *)
Definition setPageNumber (st : State) (page : Z) : State :=
  mkState (renderData st) (localColumns st) (appliedFilters st) (filterValues st)
          (mkPagination page (pageLength (pageData st))).

(** [Math.floor(renderData.length / pagination.pageLength)]. *)
Definition pageCount (renderData : list object) (pagination : Pagination) : number :=
  Math_floor_div (Z.of_nat (List.length renderData)) (pageLength pagination).

(** The page numbers the pagination block offers, each one the argument
    of a [setPageNumber] call; [None] when the block is not rendered. *)
Definition pageNumbers (renderData : list object) (pagination : Pagination)
    : result (option (list Z)) :=
  if Z.of_nat (List.length renderData) >? pageLength pagination then
    ks <- Array_keys (pageCount renderData pagination) ;;
    Ok (Some (map (fun pageNumber => pageNumber + 1) ks))
  else Ok None.

(** The test that guards a column's cells: [column.visible !== false]. *)
Definition isVisible (column : Column) : bool :=
  negb (strictEquals (visible column) (VBool false)).

End Paginated.

(** ** The version with the falsy set *)

Module FalsySet.

Definition falsy : list value :=
  [VBool false; VStr "0"; VStr "false"; VNum (Finite 0)].

(** The test that guards a column's cells: [!falsy.includes(column.visible)]. *)
Definition isVisible (column : Column) : bool :=
  negb (Array_includes falsy (visible column)).

(** [handleFilterChange(filterValue, key)]: the new [appliedFilters]. *)
Definition handleFilterChange (appliedFilters : object) (filterValue : value)
    (k : string) : object :=
  spreadSet appliedFilters k filterValue.

(** [clearFilters()]. *)
Definition clearFilters : object := [].

End FalsySet.

(** ** Vocabulary of the statements *)

(** [t] is a substring of [s]. *)
Definition substringOf (t s : string) : Prop :=
  exists pre post : string, s = (pre ++ t ++ post)%string.

Definition isString (v : value) : bool :=
  match v with
  | VStr _ => true
  | _ => false
  end.

(** The switch sends the key to its default branch, the global search. *)
Definition defaultBranch (filters : option (list Filter)) (filter : string) : bool :=
  let t := filterType filters filter in
  negb ((t =? "select") || (t =? "input") || (t =? "toggle"))%string.

(** The applied filters of the data model: every key sent to the global
    search holds a string, so [appliedFilter.toLowerCase()] is never called
    on another value. *)
Definition searchesAreStrings (filters : option (list Filter)) (appliedFilters : object) : bool :=
  forallb
    (fun k => implb (defaultBranch filters k) (isString (get appliedFilters k)))
    (Object_keys appliedFilters).

(** A match that was computed and is positive. *)
Definition isOkTrue (r : result bool) : bool :=
  match r with
  | Ok b => b
  | Throw _ => false
  end.

(** The object has an own property [k]. *)
Definition hasField (o : object) (k : string) : bool :=
  existsb (fun k' => (k' =? k)%string) (Object_keys o).

(** The names [Object.prototype] defines: on a row that lacks such a name
    JavaScript reads the inherited member and not [undefined]. *)
Definition Object_prototype_names : list string :=
  ["constructor"; "toString"; "toLocaleString"; "valueOf"; "hasOwnProperty";
   "isPrototypeOf"; "propertyIsEnumerable"; "__proto__"; "__defineGetter__";
   "__defineSetter__"; "__lookupGetter__"; "__lookupSetter__"].

Definition isInheritedName (k : string) : bool :=
  existsb (fun name => (name =? k)%string) Object_prototype_names.

Definition isDigit (c : ascii) : bool :=
  let n := nat_of_ascii c in ((48 <=? n) && (n <=? 57))%nat.

Fixpoint allDigits (s : string) : bool :=
  match s with
  | EmptyString => true
  | String c r => isDigit c && allDigits r
  end.

(** The keys made of decimal digits only.  They include every array index
    and integer index, the keys JavaScript enumerates before the others and
    in ascending order, wherever they were inserted. *)
Definition isIntegerKey (k : string) : bool :=
  match k with
  | EmptyString => false
  | String _ _ => allDigits k
  end.

(** The integers a JavaScript number holds exactly. *)
Definition isSafeInteger (z : Z) : bool := Z.abs z <? 2 ^ 53.

(** [getRowKey] as the row identity contract words it: [row[rowKey]] when
    [rowKey] is set and the row has that field, else [row["key"]] when the
    row has it, else [null].  Kept for comparison with [getRowKey]. *)
Definition getRowKey_contract (rowKey : option string) (item : object) : value :=
  let fallback := if hasField item "key" then get item "key" else VNull in
  match rowKey with
  | Some k => if hasField item k then get item k else fallback
  | None => fallback
  end.

(** ** Rendering of the table *)

(** [l.map((x, index) => f(x, index))], counting from [index]. *)
Fixpoint mapi_from {A B : Type} (index : nat) (f : A -> nat -> B) (l : list A) : list B :=
  match l with
  | [] => []
  | x :: r => f x index :: mapi_from (S index) f r
  end.

Definition Array_mapi {A B : Type} (f : A -> nat -> B) (l : list A) : list B :=
  mapi_from 0 f l.

(** An array index inside a template literal. *)
Definition indexString (index : nat) : string :=
  Number_toString (Finite (Z.of_nat index)).

(** The React key of a body row: [`${getRowKey(item)}-${index}`]. *)
Definition rowReactKey (rowKey : option string) (item : object) (index : nat) : string :=
  (js_String (getRowKey rowKey item) ++ "-" ++ indexString index)%string.

(** The keys of the rows of the table body, in order. *)
Definition rowReactKeys (rowKey : option string) (rows : list object) : list string :=
  Array_mapi (rowReactKey rowKey) rows.

(** What a column contributes to a row: a [Col] with its React key and its
    child, or the empty fragment. *)
Inductive cell (Display : Type) : Type :=
| Col (reactKey : string) (children : Display)
| Fragment.

Arguments Col {Display} reactKey children.
Arguments Fragment {Display}.

Definition isCol {Display : Type} (c : cell Display) : bool :=
  match c with
  | Col _ _ => true
  | Fragment => false
  end.

Section Cells.

(** [Display] is what a cell can hold, [text] a string child.  [isVisible]
    is the visibility test of the version at hand, and [render column] is
    the column's [render] attribute when it is a function. *)
Variable Display : Type.
Variable text : string -> Display.
Variable isVisible : Column -> bool.
Variable render : Column -> option (value -> object -> Display).

(** The cells of the header row; the child is [column.title || column.dataIndex]. *)
Definition headerCells (localColumns : list Column) : list (cell Display) :=
  map (fun column =>
         if isVisible column
         then Col (key column)
                  (text (if js_Boolean (VStr (title column))
                         then title column else columnDataIndex column))
         else Fragment)
      localColumns.

(** The cells of the body row of [item]. *)
Definition bodyCells (item : object) (localColumns : list Column) : list (cell Display) :=
  Array_mapi
    (fun column index =>
       if isVisible column
       then Col (key column ++ "-" ++ indexString index)%string
                (match render column with
                 | Some f => f (get item (columnDataIndex column)) item
                 | None => text (parseData (get item (columnDataIndex column)))
                 end)
       else Fragment)
    localColumns.

End Cells.

(** The character [c] occurs in [s]. *)
Fixpoint occurs (c : ascii) (s : string) : bool :=
  match s with
  | EmptyString => false
  | String d r => Ascii.eqb c d || occurs c r
  end.

(** The rows of the first [k] pages, page after page. *)
Definition pagesUpTo (renderData : list object) (pageLength : Z) (k : nat) : list object :=
  List.concat (map (fun p => Paginated.paginatedData renderData
                          (mkPagination (Z.of_nat p) pageLength))
              (seq 1 k)).

(** * Properties *)

(** ** Strings *)

Lemma prefix_app (t s : string) :
  prefix t s = true <-> exists post, s = (t ++ post)%string.
Proof.
  revert s; induction t as [|c t IH]; intros s.
  - split; [intros _; now exists s | intros _; now destruct s].
  - destruct s as [|d s]; simpl.
    + split; [discriminate | intros [post H]; discriminate].
    + destruct (ascii_dec c d) as [->|Hne].
      * rewrite IH. split; intros [post H]; exists post.
        -- now rewrite H.
        -- now inversion H.
      * split; [discriminate | intros [post H]; inversion H; congruence].
Qed.

Lemma includes_nil (t : string) : includes "" t = prefix t "" || false.
Proof. reflexivity. Qed.

Lemma includes_cons (c : ascii) (s t : string) :
  includes (String c s) t = prefix t (String c s) || includes s t.
Proof. reflexivity. Qed.

Lemma includes_substring (s t : string) :
  includes s t = true <-> substringOf t s.
Proof.
  unfold substringOf. induction s as [|c s IH].
  - rewrite includes_nil, orb_false_r, prefix_app. split.
    + intros [post H]. now exists EmptyString, post.
    + intros [pre [post H]]. destruct pre; simpl in H.
      * now exists post.
      * discriminate.
  - rewrite includes_cons, orb_true_iff, prefix_app, IH. split.
    + intros [[post H] | [pre [post H]]].
      * now exists EmptyString, post.
      * exists (String c pre), post. simpl. now rewrite H.
    + intros [pre [post H]]. destruct pre as [|d pre]; simpl in H.
      * left. now exists post.
      * right. inversion H. now exists pre, post.
Qed.

Lemma includes_empty (s : string) : includes s "" = true.
Proof. destruct s; reflexivity. Qed.

Lemma toLowerCase_empty : toLowerCase "" = "".
Proof. reflexivity. Qed.

(** ** Lookup and dispatch *)

Lemma filterData_none (filters : option (list Filter)) (k : string) :
  (forall fd, In fd (getFilters filters) -> dataIndex fd <> k) ->
  filterData filters k = None.
Proof.
  unfold filterData. induction (getFilters filters) as [|fd fs IH]; intros H; simpl.
  - reflexivity.
  - destruct (String.eqb_spec (dataIndex fd) k) as [E|_].
    + exfalso. apply (H fd); [now left | exact E].
    + apply IH. intros fd' Hin. apply H. now right.
Qed.

Lemma filterData_some (filters : option (list Filter)) (k : string) (fd : Filter) :
  filterData filters k = Some fd ->
  In fd (getFilters filters) /\ dataIndex fd = k.
Proof.
  unfold filterData.
  destruct (List.filter _ (getFilters filters)) as [|x r] eqn:E; simpl; [discriminate|].
  intros [= <-].
  assert (Hin : In x (List.filter (fun item => (dataIndex item =? k)%string)
                                  (getFilters filters))) by (rewrite E; now left).
  apply filter_In in Hin. destruct Hin as [Hin Heq].
  split; [exact Hin | now apply String.eqb_eq].
Qed.

Lemma filterType_found (filters : option (list Filter)) (k : string) (fd : Filter) :
  filterData filters k = Some fd -> filterType filters k = type fd.
Proof. unfold filterType. now intros ->. Qed.

Lemma filterType_missing (filters : option (list Filter)) (k : string) :
  filterData filters k = None -> filterType filters k = "globalSearch".
Proof. unfold filterType. now intros ->. Qed.

Lemma matchFilter_select filters applied item k :
  filterType filters k = "select" ->
  matchFilter filters applied item k =
    Ok (js_String (get item k) =? js_String (get applied k))%string.
Proof. unfold matchFilter. now intros ->. Qed.

Lemma matchFilter_input filters applied item k :
  filterType filters k = "input" ->
  matchFilter filters applied item k =
    Ok (includes (toLowerCase (js_String (get item k)))
                 (toLowerCase (js_String (get applied k)))).
Proof. unfold matchFilter. now intros ->. Qed.

Lemma matchFilter_toggle filters applied item k :
  filterType filters k = "toggle" ->
  matchFilter filters applied item k =
    Ok (Bool.eqb (js_Boolean (get item k)) (js_Boolean (get applied k))).
Proof. unfold matchFilter. now intros ->. Qed.

Lemma matchFilter_default filters applied item k :
  defaultBranch filters k = true ->
  matchFilter filters applied item k =
    Array_some
      (fun f =>
         needle <- call_toLowerCase (get applied k) ;;
         Ok (includes (toLowerCase (js_String (get item f))) needle))
      (Object_keys item).
Proof.
  unfold defaultBranch, matchFilter. intros H.
  apply negb_true_iff in H. apply orb_false_iff in H. destruct H as [H Ht].
  apply orb_false_iff in H. destruct H as [Hs Hi].
  now rewrite Hs, Hi, Ht.
Qed.

Lemma defaultBranch_missing filters k :
  filterData filters k = None -> defaultBranch filters k = true.
Proof.
  intros H. unfold defaultBranch. now rewrite (filterType_missing _ _ H).
Qed.

Lemma Array_some_search (s : string) (item : object) (ks : list string) :
  Array_some
    (fun f =>
       needle <- call_toLowerCase (VStr s) ;;
       Ok (includes (toLowerCase (js_String (get item f))) needle))
    ks
  = Ok (existsb (fun f => includes (toLowerCase (js_String (get item f))) (toLowerCase s)) ks).
Proof.
  induction ks as [|f ks IH]; simpl.
  - reflexivity.
  - destruct (includes _ _); [reflexivity | exact IH].
Qed.

Lemma Array_some_raises (v : value) (item : object) (f : string) (ks : list string) :
  isString v = false ->
  Array_some
    (fun f =>
       needle <- call_toLowerCase v ;;
       Ok (includes (toLowerCase (js_String (get item f))) needle))
    (f :: ks)
  = Throw TypeError.
Proof. destruct v; simpl; intros H; try reflexivity; discriminate. Qed.

(** ** The matching rules *)

(** C7. With a filter definition of type select, a row matches exactly when
    the string conversions of the row's field and of the applied value are
    the same string, letter case included. *)
Theorem select_matches_exact_string filters applied item k fd :
  filterData filters k = Some fd ->
  type fd = "select" ->
  matchFilter filters applied item k =
    Ok (js_String (get item k) =? js_String (get applied k))%string
  /\ (matchFilter filters applied item k = Ok true
      <-> js_String (get item k) = js_String (get applied k)).
Proof.
  intros Hfd Hty.
  assert (E := matchFilter_select filters applied item k
                 (eq_trans (filterType_found _ _ _ Hfd) Hty)).
  split; [exact E|]. rewrite E. split.
  - intros [= H]. now apply String.eqb_eq.
  - intros H. f_equal. now apply String.eqb_eq.
Qed.

(** P4: the applied value "active" matches status "active" and not
    status "Active". *)
Lemma select_matches_exact_string_witness :
  let fd := mkFilter "select" "status" None in
  let filters := Some [fd] in
  let applied := [("status", VStr "active")] in
  filterData filters "status" = Some fd
  /\ matchFilter filters applied [("status", VStr "active")] "status" = Ok true
  /\ matchFilter filters applied [("status", VStr "Active")] "status" = Ok false.
Proof.
  intros fd filters applied. split; [reflexivity | split].
  - exact (proj1 (select_matches_exact_string filters applied
                    [("status", VStr "active")] "status" fd eq_refl eq_refl)).
  - exact (proj1 (select_matches_exact_string filters applied
                    [("status", VStr "Active")] "status" fd eq_refl eq_refl)).
Defined.

(** C8. With a filter definition of type input, a row matches exactly when
    the lower-cased string conversion of the applied value is a substring
    of the lower-cased string conversion of the row's field; the empty
    applied string therefore matches every row. *)
Theorem input_matches_substring filters applied item k fd :
  filterData filters k = Some fd ->
  type fd = "input" ->
  matchFilter filters applied item k =
    Ok (includes (toLowerCase (js_String (get item k)))
                 (toLowerCase (js_String (get applied k))))
  /\ (matchFilter filters applied item k = Ok true
      <-> substringOf (toLowerCase (js_String (get applied k)))
                      (toLowerCase (js_String (get item k))))
  /\ (get applied k = VStr "" -> matchFilter filters applied item k = Ok true).
Proof.
  intros Hfd Hty.
  assert (E := matchFilter_input filters applied item k
                 (eq_trans (filterType_found _ _ _ Hfd) Hty)).
  split; [exact E|]. rewrite E. split.
  - rewrite <- includes_substring. split.
    + now intros [= H].
    + now intros ->.
  - intros ->. simpl. now rewrite includes_empty.
Qed.

(** P5 and the empty applied string: "an" matches "Anna" and "banana" and
    not "Bo"; the empty string matches a row without the field. *)
Lemma input_matches_substring_witness :
  let fd := mkFilter "input" "name" None in
  let filters := Some [fd] in
  let applied := [("name", VStr "an")] in
  filterData filters "name" = Some fd
  /\ matchFilter filters applied [("name", VStr "Anna")] "name" = Ok true
  /\ matchFilter filters applied [("name", VStr "banana")] "name" = Ok true
  /\ matchFilter filters applied [("name", VStr "Bo")] "name" = Ok false
  /\ matchFilter filters [("name", VStr "")] [("id", VNum (Finite 7))] "name" = Ok true.
Proof.
  intros fd filters applied.
  split; [reflexivity|]. split; [|split; [|split]].
  - exact (proj1 (input_matches_substring filters applied
                    [("name", VStr "Anna")] "name" fd eq_refl eq_refl)).
  - exact (proj1 (input_matches_substring filters applied
                    [("name", VStr "banana")] "name" fd eq_refl eq_refl)).
  - exact (proj1 (input_matches_substring filters applied
                    [("name", VStr "Bo")] "name" fd eq_refl eq_refl)).
  - exact (proj2 (proj2 (input_matches_substring filters [("name", VStr "")]
                    [("id", VNum (Finite 7))] "name" fd eq_refl eq_refl)) eq_refl).
Defined.

(** C9. With a filter definition of type toggle, a row matches exactly when
    the truthiness of the row's field equals the boolean coercion of the
    applied value. *)
Theorem toggle_matches_truthiness filters applied item k fd :
  filterData filters k = Some fd ->
  type fd = "toggle" ->
  matchFilter filters applied item k =
    Ok (Bool.eqb (js_Boolean (get item k)) (js_Boolean (get applied k)))
  /\ (matchFilter filters applied item k = Ok true
      <-> js_Boolean (get item k) = js_Boolean (get applied k)).
Proof.
  intros Hfd Hty.
  assert (E := matchFilter_toggle filters applied item k
                 (eq_trans (filterType_found _ _ _ Hfd) Hty)).
  split; [exact E|]. rewrite E. split.
  - intros [= H]. now apply Bool.eqb_prop.
  - intros ->. f_equal. apply Bool.eqb_reflx.
Qed.

(** P6: the applied value [true] matches active 1 and active "yes" and
    excludes active 0 and the empty string. *)
Lemma toggle_matches_truthiness_witness :
  let fd := mkFilter "toggle" "active" None in
  let filters := Some [fd] in
  let applied := [("active", VBool true)] in
  filterData filters "active" = Some fd
  /\ matchFilter filters applied [("active", VNum (Finite 1))] "active" = Ok true
  /\ matchFilter filters applied [("active", VStr "yes")] "active" = Ok true
  /\ matchFilter filters applied [("active", VNum (Finite 0))] "active" = Ok false
  /\ matchFilter filters applied [("active", VStr "")] "active" = Ok false.
Proof.
  intros fd filters applied.
  split; [reflexivity|]. split; [|split; [|split]].
  - exact (proj1 (toggle_matches_truthiness filters applied
                    [("active", VNum (Finite 1))] "active" fd eq_refl eq_refl)).
  - exact (proj1 (toggle_matches_truthiness filters applied
                    [("active", VStr "yes")] "active" fd eq_refl eq_refl)).
  - exact (proj1 (toggle_matches_truthiness filters applied
                    [("active", VNum (Finite 0))] "active" fd eq_refl eq_refl)).
  - exact (proj1 (toggle_matches_truthiness filters applied
                    [("active", VStr "")] "active" fd eq_refl eq_refl)).
Defined.

(** C2. For a key that is the dataIndex of no filter definition, the reserved
    key "globalSearch" among them, and an applied string, a row matches
    exactly when the lower-cased applied string is a substring of the
    lower-cased string conversion of some field of the row.  Every field
    is scanned, whatever the visibility of its column. *)
Theorem globalSearch_scans_every_field filters applied item k s :
  (forall fd, In fd (getFilters filters) -> dataIndex fd <> k) ->
  get applied k = VStr s ->
  matchFilter filters applied item k =
    Ok (existsb
          (fun f => includes (toLowerCase (js_String (get item f))) (toLowerCase s))
          (Object_keys item))
  /\ (matchFilter filters applied item k = Ok true
      <-> exists f, In f (Object_keys item)
                    /\ substringOf (toLowerCase s) (toLowerCase (js_String (get item f))))
  /\ (forall column : Column,
        FalsySet.isVisible column = false \/ Paginated.isVisible column = false ->
        In (columnDataIndex column) (Object_keys item) ->
        substringOf (toLowerCase s)
                    (toLowerCase (js_String (get item (columnDataIndex column)))) ->
        matchFilter filters applied item k = Ok true).
Proof.
  intros Hnone Hs.
  assert (E : matchFilter filters applied item k =
              Ok (existsb
                    (fun f => includes (toLowerCase (js_String (get item f)))
                                       (toLowerCase s))
                    (Object_keys item))).
  { rewrite matchFilter_default
      by (apply defaultBranch_missing, filterData_none, Hnone).
    rewrite Hs. apply Array_some_search. }
  assert (Hiff : matchFilter filters applied item k = Ok true
                 <-> exists f, In f (Object_keys item)
                     /\ substringOf (toLowerCase s)
                                    (toLowerCase (js_String (get item f)))).
  { rewrite E. split.
    - intros [= H]. apply existsb_exists in H. destruct H as [f [Hin Hinc]].
      exists f. split; [exact Hin | now apply includes_substring].
    - intros [f [Hin Hsub]]. f_equal. apply existsb_exists.
      exists f. split; [exact Hin | now apply includes_substring]. }
  split; [exact E | split; [exact Hiff|]].
  intros column _ Hin Hsub. apply Hiff. now exists (columnDataIndex column).
Qed.

(** P7: with no filter definition at all, the key "globalSearch" and the
    applied string "SECR" match a row through its field "note", whose
    column is hidden, and do not match a row without such a field. *)
Lemma globalSearch_scans_every_field_witness :
  let applied := [("globalSearch", VStr "SECR")] in
  let hidden := mkColumn "Note" "c-note" "note" (VBool false) in
  FalsySet.isVisible hidden = false
  /\ matchFilter None applied
       [("name", VStr "Al"); ("note", VStr "Top Secret")] "globalSearch" = Ok true
  /\ matchFilter None applied
       [("name", VStr "Bo"); ("note", VStr "public")] "globalSearch" = Ok false.
Proof.
  intros applied hidden.
  assert (Hnone : forall fd, In fd (getFilters None) -> dataIndex fd <> "globalSearch")
    by (intros fd []).
  split; [reflexivity|]. split.
  - exact (proj1 (globalSearch_scans_every_field None applied
                    [("name", VStr "Al"); ("note", VStr "Top Secret")]
                    "globalSearch" "SECR" Hnone eq_refl)).
  - exact (proj1 (globalSearch_scans_every_field None applied
                    [("name", VStr "Bo"); ("note", VStr "public")]
                    "globalSearch" "SECR" Hnone eq_refl)).
Defined.

(** ** The filtering effect *)

Lemma Array_every_computed {A : Type} (f : A -> result bool) (l : list A) :
  (forall x, In x l -> exists b, f x = Ok b) ->
  Array_every f l = Ok (forallb (fun x => isOkTrue (f x)) l).
Proof.
  induction l as [|x l IH]; intros H; simpl.
  - reflexivity.
  - destruct (H x (or_introl eq_refl)) as [b ->]. simpl.
    destruct b; [|reflexivity].
    apply IH. intros y Hy. apply H. now right.
Qed.

Lemma Array_filter_computed {A : Type} (f : A -> result bool) (g : A -> bool) (l : list A) :
  (forall x, In x l -> f x = Ok (g x)) ->
  Array_filter f l = Ok (List.filter g l).
Proof.
  induction l as [|x l IH]; intros H; simpl.
  - reflexivity.
  - rewrite (H x (or_introl eq_refl)). simpl.
    rewrite IH by (intros y Hy; apply H; now right). reflexivity.
Qed.

Lemma matchFilter_computed filters applied item k :
  implb (defaultBranch filters k) (isString (get applied k)) = true ->
  exists b, matchFilter filters applied item k = Ok b.
Proof.
  intros H. destruct (defaultBranch filters k) eqn:D.
  - simpl in H. rewrite (matchFilter_default _ _ _ _ D).
    destruct (get applied k) as [| | |n|s]; try discriminate.
    rewrite Array_some_search. eauto.
  - clear H. unfold matchFilter. unfold defaultBranch in D.
    destruct (filterType filters k =? "select")%string; [eauto|].
    destruct (filterType filters k =? "input")%string; [eauto|].
    destruct (filterType filters k =? "toggle")%string; [eauto|].
    discriminate.
Qed.

Lemma rowPasses_computed filters applied item :
  searchesAreStrings filters applied = true ->
  rowPasses filters applied item =
    Ok (forallb (fun k => isOkTrue (matchFilter filters applied item k))
                (Object_keys applied)).
Proof.
  intros H. unfold rowPasses. apply Array_every_computed.
  intros k Hk. apply matchFilter_computed.
  unfold searchesAreStrings in H. rewrite forallb_forall in H. now apply H.
Qed.

Lemma Array_every_returned {A : Type} (f : A -> result bool) (l : list A) (b : bool) :
  Array_every f l = Ok b -> b = forallb (fun x => isOkTrue (f x)) l.
Proof.
  induction l as [|x l IH]; simpl.
  - now intros [= <-].
  - destruct (f x) as [[|]|e]; simpl.
    + exact IH.
    + now intros [= <-].
    + discriminate.
Qed.

Lemma Array_filter_returned {A : Type} (f : A -> result bool) (g : A -> bool)
    (l out : list A) :
  (forall x b, f x = Ok b -> b = g x) ->
  Array_filter f l = Ok out -> out = List.filter g l.
Proof.
  intros Hfg. revert out; induction l as [|x l IH]; intros out; simpl.
  - now intros [= <-].
  - destruct (f x) as [b|e] eqn:Ex; simpl; [|discriminate].
    destruct (Array_filter f l) as [kept|e]; simpl; [|discriminate].
    intros [= <-]. rewrite <- (Hfg x b Ex), <- (IH kept eq_refl). reflexivity.
Qed.

(** C1. The filtering effect returns the rows, in their original order,
    that match every key of the applied filters; with no applied filter it
    returns the rows unchanged.  It returns for the applied filters of the
    data model, where a key sent to the global search holds a string, and
    whenever it returns, the result is that subsequence. *)
Theorem filteredData_keeps_rows_matching_every_key data filters applied :
  let kept :=
    List.filter
      (fun item =>
         forallb (fun k => isOkTrue (matchFilter filters applied item k))
                 (Object_keys applied))
      data in
  (searchesAreStrings filters applied = true ->
   filteredData data filters applied = Ok kept)
  /\ (forall out, filteredData data filters applied = Ok out -> out = kept)
  /\ (forall item,
        In item kept <->
        In item data
        /\ forall k, In k (Object_keys applied) ->
                     matchFilter filters applied item k = Ok true)
  /\ filteredData data filters [] = Ok data.
Proof.
  intros kept. split; [|split; [|split]].
  - intros H. unfold filteredData. apply Array_filter_computed.
    intros item _. now apply rowPasses_computed.
  - intros out. unfold filteredData. apply Array_filter_returned.
    intros item b. apply Array_every_returned.
  - intros item. unfold kept.
    rewrite filter_In, forallb_forall. split; intros [Hin Hall]; split; try exact Hin.
    + intros k Hk. specialize (Hall k Hk).
      destruct (matchFilter filters applied item k) as [b|e]; simpl in Hall;
        [now subst | discriminate].
    + intros k Hk. now rewrite (Hall k Hk).
  - unfold filteredData. clear. induction data as [|item data IH]; simpl.
    + reflexivity.
    + now rewrite IH.
Qed.

(** Two applied filters over four rows: the rows kept are those matching
    both, in the order of the input. *)
Lemma filteredData_keeps_rows_matching_every_key_witness :
  let filters :=
    Some [mkFilter "select" "status" None; mkFilter "toggle" "active" None] in
  let applied :=
    [("status", VStr "open"); ("active", VBool true); ("globalSearch", VStr "a")] in
  let r1 := [("name", VStr "Al"); ("status", VStr "open"); ("active", VBool true)] in
  let r2 := [("name", VStr "Bo"); ("status", VStr "open"); ("active", VBool true)] in
  let r3 := [("name", VStr "Cy"); ("status", VStr "open"); ("active", VBool false)] in
  let r4 := [("name", VStr "Ada"); ("status", VStr "open"); ("active", VNum (Finite 1))] in
  searchesAreStrings filters applied = true
  /\ filteredData [r1; r2; r3; r4] filters applied = Ok [r1; r4]
  /\ filteredData [r1; r2; r3; r4] filters [] = Ok [r1; r2; r3; r4].
Proof.
  intros filters applied r1 r2 r3 r4.
  split; [reflexivity|]. split.
  - exact (proj1 (filteredData_keeps_rows_matching_every_key
                    [r1; r2; r3; r4] filters applied) eq_refl).
  - exact (proj2 (proj2 (proj2 (filteredData_keeps_rows_matching_every_key
                    [r1; r2; r3; r4] filters applied)))).
Defined.

(** ** Pagination *)

Lemma Array_slice_window {A : Type} (l : list A) (start finish : Z) :
  0 <= start -> start <= finish ->
  Array_slice l start finish =
    firstn (Z.to_nat (finish - start)) (skipn (Z.to_nat start) l).
Proof.
  intros Hs Hf. unfold Array_slice.
  set (len := Z.of_nat (List.length l)).
  assert (Hlen : 0 <= len) by (unfold len; lia).
  destruct (Z.ltb_spec start 0) as [?|_]; [lia|].
  destruct (Z.ltb_spec finish 0) as [?|_]; [lia|].
  destruct (Z_le_gt_dec finish len) as [Hin|Hout].
  - rewrite (Z.min_l finish len), (Z.min_l start len) by lia. reflexivity.
  - rewrite (Z.min_r finish len) by lia.
    destruct (Z_le_gt_dec start len) as [Hs'|Hs'].
    + rewrite (Z.min_l start len) by lia.
      rewrite !firstn_all2; [reflexivity| |];
        rewrite length_skipn; unfold len in *; lia.
    + rewrite (Z.min_r start len) by lia.
      rewrite !skipn_all2 by (unfold len in *; lia).
      now rewrite !firstn_nil.
Qed.

Lemma paginatedData_window renderData pageData :
  1 <= currentPage pageData ->
  1 <= pageLength pageData ->
  Paginated.paginatedData renderData pageData =
    firstn (Z.to_nat (pageLength pageData))
           (skipn (Z.to_nat ((currentPage pageData - 1) * pageLength pageData)) renderData).
Proof.
  intros Hc Hp. unfold Paginated.paginatedData.
  rewrite Array_slice_window by nia.
  do 2 f_equal. lia.
Qed.

Lemma paginatedData_length renderData pageData :
  1 <= currentPage pageData ->
  1 <= pageLength pageData ->
  Z.of_nat (List.length (Paginated.paginatedData renderData pageData)) =
    Z.max 0 (Z.min (pageLength pageData)
                   (Z.of_nat (List.length renderData)
                    - (currentPage pageData - 1) * pageLength pageData)).
Proof.
  intros Hc Hp. rewrite paginatedData_window by assumption.
  rewrite length_firstn, length_skipn. nia.
Qed.

(** C5. For a current page and a page length of at least one, the page
    holds the rows at the zero-based positions from
    [(currentPage-1)*pageLength] up to, and without, [currentPage*pageLength],
    as far as the rows go; a window past the last row gives fewer rows or
    none. *)
Theorem paginatedData_is_clipped_window renderData pageData :
  1 <= currentPage pageData ->
  1 <= pageLength pageData ->
  let start := (currentPage pageData - 1) * pageLength pageData in
  let len := Z.of_nat (List.length renderData) in
  let page := Paginated.paginatedData renderData pageData in
  (forall i : nat,
     nth_error page i =
       if Z.of_nat i <? pageLength pageData
       then nth_error renderData (Z.to_nat (start + Z.of_nat i))
       else None)
  /\ Z.of_nat (List.length page) = Z.max 0 (Z.min (pageLength pageData) (len - start))
  /\ (len <= start -> page = []).
Proof.
  intros Hc Hp start len page.
  assert (Hstart : 0 <= start) by (unfold start; nia).
  assert (E : page = firstn (Z.to_nat (pageLength pageData))
                            (skipn (Z.to_nat start) renderData))
    by (apply paginatedData_window; assumption).
  split; [|split].
  - intros i. rewrite E, nth_error_firstn, nth_error_skipn.
    destruct (Z.ltb_spec (Z.of_nat i) (pageLength pageData)) as [Hi|Hi].
    + destruct (Nat.ltb_spec i (Z.to_nat (pageLength pageData))) as [_|?]; [|lia].
      f_equal. lia.
    + destruct (Nat.ltb_spec i (Z.to_nat (pageLength pageData))) as [?|_]; [lia|].
      reflexivity.
  - apply paginatedData_length; assumption.
  - intros Hout. rewrite E, skipn_all2 by (unfold len in Hout; lia).
    apply firstn_nil.
Qed.

(** P8: 125 rows in pages of 50.  Page 1 is rows 0 to 49, page 3 is the 25
    rows from row 100 on, page 4 is empty. *)
Lemma paginatedData_is_clipped_window_witness :
  let rows := map (fun i => [("id", VNum (Finite (Z.of_nat i)))]) (seq 0 125) in
  Paginated.paginatedData rows (mkPagination 1 50) = firstn 50 rows
  /\ Paginated.paginatedData rows (mkPagination 3 50) = skipn 100 rows
  /\ Z.of_nat (List.length (Paginated.paginatedData rows (mkPagination 3 50))) = 25
  /\ Paginated.paginatedData rows (mkPagination 4 50) = [].
Proof.
  intros rows.
  split; [reflexivity|]. split; [reflexivity|]. split.
  - exact (proj1 (proj2 (paginatedData_is_clipped_window rows (mkPagination 3 50)
                           ltac:(simpl; lia) ltac:(simpl; lia)))).
  - apply (proj2 (proj2 (paginatedData_is_clipped_window rows (mkPagination 4 50)
                           ltac:(simpl; lia) ltac:(simpl; lia)))).
    vm_compute. discriminate.
Defined.

Lemma Math_floor_div_pos (a b : Z) :
  1 <= b -> Math_floor_div a b = Finite (a / b).
Proof.
  intros Hb. unfold Math_floor_div.
  destruct (Z.eqb_spec b 0) as [?|_]; [lia|].
  now rewrite <- Zdiv_Qdiv.
Qed.

Lemma map_succ_seq (a k : nat) :
  map (fun pageNumber => pageNumber + 1) (map Z.of_nat (seq a k)) =
  map Z.of_nat (seq (S a) k).
Proof.
  revert a; induction k as [|k IH]; intros a; simpl.
  - reflexivity.
  - rewrite IH. f_equal. lia.
Qed.

Lemma In_page_numbers (p : Z) (k : nat) :
  In p (map Z.of_nat (seq 1 k)) <-> 1 <= p <= Z.of_nat k.
Proof.
  rewrite in_map_iff. split.
  - intros [i [<- Hi]]. apply in_seq in Hi. lia.
  - intros H. exists (Z.to_nat p). split; [lia|]. apply in_seq. lia.
Qed.

(** C4. For a page length of at least one, the page count is the floor of
    the row count divided by the page length, and the pagination block
    offers the pages 1 to that count.  A trailing partial page holds rows
    but its number is not offered. *)
Theorem pageCount_is_floor renderData pagination :
  1 <= pageLength pagination ->
  let n := Z.of_nat (List.length renderData) in
  let pl := pageLength pagination in
  Paginated.pageCount renderData pagination = Finite (n / pl)
  /\ (pl * (n / pl) <= n < pl * (n / pl + 1))
  /\ Paginated.pageNumbers renderData pagination =
       Ok (if n >? pl then Some (map Z.of_nat (seq 1 (Z.to_nat (n / pl)))) else None)
  /\ (forall p ps,
        Paginated.pageNumbers renderData pagination = Ok (Some ps) ->
        (In p ps <-> 1 <= p <= n / pl))
  /\ (pl < n -> n mod pl <> 0 ->
      Paginated.paginatedData renderData (mkPagination (n / pl + 1) pl) <> []
      /\ forall ps,
           Paginated.pageNumbers renderData pagination = Ok (Some ps) ->
           ~ In (n / pl + 1) ps).
Proof.
  intros Hp n pl.
  assert (Hn : 0 <= n) by (unfold n; lia).
  assert (Hq : 0 <= n / pl) by (apply Z.div_pos; lia).
  assert (Hdiv := Z.div_mod n pl ltac:(lia)).
  assert (Hmod := Z.mod_pos_bound n pl ltac:(lia)).
  assert (Ecount : Paginated.pageCount renderData pagination = Finite (n / pl))
    by (apply Math_floor_div_pos; exact Hp).
  assert (Enum : Paginated.pageNumbers renderData pagination =
            Ok (if n >? pl then Some (map Z.of_nat (seq 1 (Z.to_nat (n / pl)))) else None)).
  { unfold Paginated.pageNumbers. fold n. fold pl.
    destruct (n >? pl); [|reflexivity].
    rewrite Ecount. simpl.
    destruct (Z.ltb_spec (n / pl) 0) as [?|_]; [lia|].
    simpl. now rewrite map_succ_seq. }
  assert (Hin : forall p ps,
            Paginated.pageNumbers renderData pagination = Ok (Some ps) ->
            (In p ps <-> 1 <= p <= n / pl)).
  { intros p ps. rewrite Enum. destruct (n >? pl); [|discriminate].
    intros [= <-]. rewrite In_page_numbers. lia. }
  split; [exact Ecount|]. split; [nia|]. split; [exact Enum|]. split; [exact Hin|].
  intros Hgt Hrem. split.
  - intros Hnil.
    assert (Hlen := paginatedData_length renderData (mkPagination (n / pl + 1) pl)
                      ltac:(simpl; lia) ltac:(simpl; lia)).
    simpl in Hlen. rewrite Hnil in Hlen. simpl in Hlen. fold n in Hlen. nia.
  - intros ps Hps Hlast. apply (Hin _ _ Hps) in Hlast. lia.
Qed.

(** P8: 125 rows in pages of 50 give the page count 2 and the page numbers
    1 and 2; page 3 holds the last 25 rows and is not offered. *)
Lemma pageCount_is_floor_witness :
  let rows := map (fun i => [("id", VNum (Finite (Z.of_nat i)))]) (seq 0 125) in
  let pagination := mkPagination 1 50 in
  1 <= pageLength pagination
  /\ Paginated.pageCount rows pagination = Finite 2
  /\ Paginated.pageNumbers rows pagination = Ok (Some [1; 2])
  /\ Paginated.paginatedData rows (mkPagination 3 50) <> [].
Proof.
  intros rows pagination.
  assert (Hp : 1 <= pageLength pagination) by (simpl; lia).
  split; [exact Hp|]. split; [|split].
  - exact (proj1 (pageCount_is_floor rows pagination Hp)).
  - exact (proj1 (proj2 (proj2 (pageCount_is_floor rows pagination Hp)))).
  - apply (proj2 (proj2 (proj2 (proj2 (pageCount_is_floor rows pagination Hp))))).
    + vm_compute. reflexivity.
    + vm_compute. discriminate.
Defined.

(** ** Column visibility *)

Lemma sameValueZero_false (v : value) :
  sameValueZero (VBool false) v = true <-> v = VBool false.
Proof.
  destruct v as [| |[|]|n|s]; simpl; split; intros H;
    try reflexivity; try discriminate.
Qed.

Lemma sameValueZero_string (t : string) (v : value) :
  sameValueZero (VStr t) v = true <-> v = VStr t.
Proof.
  destruct v as [| |b|n|s]; simpl; split; intros H; try discriminate.
  - apply String.eqb_eq in H. now subst.
  - injection H as ->. apply String.eqb_refl.
Qed.

Lemma sameValueZero_zero (v : value) :
  sameValueZero (VNum (Finite 0)) v = true <-> v = VNum (Finite 0).
Proof.
  destruct v as [| |b|[z| |neg]|s]; simpl; split; intros H; try discriminate.
  - destruct z; [reflexivity | discriminate | discriminate].
  - injection H as ->. reflexivity.
Qed.

(** C3. A column is hidden exactly when its [visible] attribute is one of
    [false], ["0"], ["false"] and [0]; with any other value, an absent or
    [null] attribute and the empty string among them, it is visible. *)
Theorem isVisible_false_iff_in_falsy_set column :
  (FalsySet.isVisible column = false
   <-> visible column = VBool false \/ visible column = VStr "0"
       \/ visible column = VStr "false" \/ visible column = VNum (Finite 0))
  /\ (FalsySet.isVisible column = true
      <-> visible column <> VBool false /\ visible column <> VStr "0"
          /\ visible column <> VStr "false" /\ visible column <> VNum (Finite 0))
  /\ (forall t k d v,
        In v [VUndefined; VNull; VStr "1"; VNum (Finite 1); VStr "yes"; VStr "";
              VBool true; VNum NaN] ->
        FalsySet.isVisible (mkColumn t k d v) = true).
Proof.
  assert (Hhidden : forall c,
    FalsySet.isVisible c = false
    <-> visible c = VBool false \/ visible c = VStr "0"
        \/ visible c = VStr "false" \/ visible c = VNum (Finite 0)).
  { intros c. unfold FalsySet.isVisible, Array_includes, FalsySet.falsy.
    rewrite negb_false_iff. cbn [existsb].
    rewrite !orb_true_iff, sameValueZero_false, !sameValueZero_string,
      sameValueZero_zero.
    intuition discriminate. }
  split; [apply Hhidden|]. split.
  - rewrite <- not_false_iff_true, Hhidden. tauto.
  - intros t k d v Hv. simpl in Hv.
    destruct Hv as [<-|[<-|[<-|[<-|[<-|[<-|[<-|[<-|[]]]]]]]]]; reflexivity.
Qed.

(** P9 through the theorem: ["0"] hides a column, the empty string and an
    absent attribute do not. *)
Lemma isVisible_false_iff_in_falsy_set_witness :
  FalsySet.isVisible (mkColumn "Id" "c-id" "id" (VStr "0")) = false
  /\ FalsySet.isVisible (mkColumn "Id" "c-id" "id" (VStr "")) = true
  /\ FalsySet.isVisible (mkColumn "Id" "c-id" "id" VUndefined) = true.
Proof.
  split; [|split].
  - apply (proj1 (isVisible_false_iff_in_falsy_set
                    (mkColumn "Id" "c-id" "id" (VStr "0")))).
    right. left. reflexivity.
  - apply (proj2 (proj2 (isVisible_false_iff_in_falsy_set
                           (mkColumn "Id" "c-id" "id" (VStr ""))))).
    simpl. tauto.
  - apply (proj2 (proj2 (isVisible_false_iff_in_falsy_set
                           (mkColumn "Id" "c-id" "id" VUndefined)))).
    simpl. tauto.
Defined.

(** P9, and the other version of the component: the four values of the set
    hide a column; the test [visible !== false] of the version with
    pagination hides it for [false] alone. *)
Lemma isVisible_examples :
  map (fun v => FalsySet.isVisible (mkColumn "T" "k" "d" v))
      [VBool false; VStr "0"; VStr "false"; VNum (Finite 0);
       VUndefined; VNum (Finite 1); VStr "yes"]
  = [false; false; false; false; true; true; true]
  /\ map (fun v => Paginated.isVisible (mkColumn "T" "k" "d" v))
      [VBool false; VStr "0"; VStr "false"; VNum (Finite 0);
       VUndefined; VNum (Finite 1); VStr "yes"]
  = [false; true; true; true; true; true; true].
Proof. split; reflexivity. Qed.

(** On the values the version with pagination declares for [visible], a
    boolean or nothing, the two tests agree. *)
Lemma isVisible_versions_agree_on_booleans column :
  (visible column = VUndefined \/ exists b, visible column = VBool b) ->
  Paginated.isVisible column = FalsySet.isVisible column.
Proof.
  unfold Paginated.isVisible, FalsySet.isVisible.
  intros [-> | [[|] ->]]; reflexivity.
Qed.

(** ** Row identity *)

(** C10 as amended. With a non-empty [rowKey], [getRowKey] is [row[rowKey]]
    whether or not the row has the field; there is no fallback to
    [row["key"]].  For a row that lacks the field, and a [rowKey] that is
    not a name [Object.prototype] defines, that value is [undefined].
    Without a [rowKey] (or with the empty one) it is [row["key"]] when that
    value is truthy, and [null] when the row has no ["key"] field. *)
Theorem getRowKey_by_rowKey_then_key rowKey item :
  (forall k, rowKey = Some k -> k <> "" -> getRowKey rowKey item = get item k)
  /\ (forall k, rowKey = Some k -> k <> "" -> isInheritedName k = false ->
        hasField item k = false ->
        getRowKey rowKey item = VUndefined)
  /\ (rowKey = None \/ rowKey = Some "" ->
      js_Boolean (get item "key") = true ->
      getRowKey rowKey item = get item "key")
  /\ (rowKey = None \/ rowKey = Some "" ->
      hasField item "key" = false ->
      getRowKey rowKey item = VNull).
Proof.
  assert (Hset : forall k, rowKey = Some k -> k <> "" ->
                           getRowKey rowKey item = get item k).
  { intros k -> Hk. unfold getRowKey. simpl.
    destruct (String.eqb_spec k "") as [?|_]; [contradiction | reflexivity]. }
  assert (Habsent : forall o k, hasField o k = false -> get o k = VUndefined).
  { intros o k. unfold hasField, Object_keys.
    induction o as [|[k' v] o IH]; simpl; [reflexivity|].
    destruct (k' =? k)%string; [discriminate | exact IH]. }
  split; [exact Hset|]. split; [|split].
  - intros k Hk Hne _ Hno. rewrite (Hset k Hk Hne). now apply Habsent.
  - intros [-> | ->] Ht; unfold getRowKey; simpl; now rewrite Ht.
  - intros [-> | ->] Hno; unfold getRowKey; simpl;
      now rewrite (Habsent _ _ Hno).
Qed.

Lemma getRowKey_by_rowKey_then_key_witness :
  getRowKey (Some "id") [("id", VNum (Finite 7)); ("key", VStr "k1")] = VNum (Finite 7)
  /\ getRowKey (Some "id") [("key", VStr "k1")] = VUndefined
  /\ getRowKey None [("key", VStr "k1")] = VStr "k1"
  /\ getRowKey None [("name", VStr "Al")] = VNull
  /\ getRowKey (Some "") [("name", VStr "Al")] = VNull.
Proof.
  split; [|split; [|split; [|split]]].
  - apply (proj1 (getRowKey_by_rowKey_then_key (Some "id")
                    [("id", VNum (Finite 7)); ("key", VStr "k1")]) "id" eq_refl).
    discriminate.
  - apply (proj1 (proj2 (getRowKey_by_rowKey_then_key (Some "id")
                           [("key", VStr "k1")])) "id" eq_refl).
    + discriminate.
    + reflexivity.
    + reflexivity.
  - apply (proj1 (proj2 (proj2 (getRowKey_by_rowKey_then_key None
                                  [("key", VStr "k1")]))));
      [now left | reflexivity].
  - apply (proj2 (proj2 (proj2 (getRowKey_by_rowKey_then_key None
                                  [("name", VStr "Al")]))));
      [now left | reflexivity].
  - apply (proj2 (proj2 (proj2 (getRowKey_by_rowKey_then_key (Some "")
                                  [("name", VStr "Al")]))));
      [now right | reflexivity].
Defined.

(** C10 as worded fails on the code.  A row with a ["key"] field and no
    ["id"] field, under [rowKey = "id"], gets [undefined] and not its
    ["key"]. *)
Lemma getRowKey_contract_counterexample :
  hasField [("key", VStr "k1")] "id" = false
  /\ hasField [("key", VStr "k1")] "key" = true
  /\ getRowKey (Some "id") [("key", VStr "k1")] = VUndefined
  /\ getRowKey_contract (Some "id") [("key", VStr "k1")] = VStr "k1"
  /\ ~ (forall rowKey item, getRowKey rowKey item = getRowKey_contract rowKey item).
Proof.
  split; [reflexivity|]. split; [reflexivity|].
  split; [reflexivity|]. split; [reflexivity|].
  intros H. specialize (H (Some "id") [("key", VStr "k1")]). discriminate H.
Qed.

(** The guard on [item['key']] is a truthiness test: a ["key"] field that
    holds [0], the empty string or [false] is passed over. *)
Lemma getRowKey_falsy_key :
  getRowKey None [("key", VNum (Finite 0))] = VNull
  /\ getRowKey None [("key", VStr "")] = VNull
  /\ getRowKey None [("key", VBool false)] = VNull.
Proof. repeat split. Qed.

(** ** Raising paths *)

Lemma handleFilterChange_without_definition filters st filterValue k :
  filterData filters k = None ->
  snd (Paginated.handleFilterChange filters st filterValue k) = Throw TypeError.
Proof. unfold Paginated.handleFilterChange. now intros ->. Qed.

Lemma handleFilterChange_with_definition filters st filterValue k fd :
  filterData filters k = Some fd ->
  onFilterChange fd = None ->
  Paginated.handleFilterChange filters st filterValue k =
    (Paginated.mkState (Paginated.renderData st) (Paginated.localColumns st)
       (spreadSet (Paginated.appliedFilters st) k filterValue)
       (spreadSet (Paginated.filterValues st) k filterValue)
       (Paginated.pageData st),
     Ok tt).
Proof. unfold Paginated.handleFilterChange. now intros -> ->. Qed.

Lemma matchFilter_default_raises filters applied item k :
  defaultBranch filters k = true ->
  isString (get applied k) = false ->
  item <> [] ->
  matchFilter filters applied item k = Throw TypeError.
Proof.
  intros D Hv Hne. rewrite (matchFilter_default _ _ _ _ D).
  destruct item as [|[f v] item]; [contradiction|].
  now apply Array_some_raises.
Qed.

(** C6 against the code.  With the filters [[{type: 'input', dataIndex:
    'name'}]], typing "al" in the global search box calls
    [handleFilterChange("al", "globalSearch")]: [filterData] is undefined
    and reading [filterData.onFilterChange] raises a TypeError, after the
    update of [filterValues] and before any update of [appliedFilters].
    The other version of the component stores the value.  In the filtering
    effect, the applied boolean [true] under a key without definition raises
    a TypeError at [appliedFilter.toLowerCase()] on any row that has a
    field. *)
Theorem handleFilterChange_globalSearch_raises :
  let filters := Some [mkFilter "input" "name" None] in
  let st := Paginated.mkState [] [] [] [] (mkPagination 1 50) in
  filterData filters "globalSearch" = None
  /\ Paginated.handleFilterChange filters st (VStr "al") "globalSearch" =
       (Paginated.mkState [] [] [] [("globalSearch", VStr "al")] (mkPagination 1 50),
        Throw TypeError)
  /\ FalsySet.handleFilterChange [] (VStr "al") "globalSearch" =
       [("globalSearch", VStr "al")]
  /\ matchFilter filters [("globalSearch", VBool true)] [("name", VStr "Al")]
       "globalSearch" = Throw TypeError
  /\ filteredData [[("name", VStr "Al")]] filters [("globalSearch", VBool true)] =
       Throw TypeError
  /\ matchFilter filters [("name", VBool true)] [("name", VStr "Al")] "name" = Ok false.
Proof. repeat split. Qed.

(** * Further properties of the code *)

(** ** Merging a filter value *)

Lemma get_spreadSet_same (o : object) (k : string) (v : value) :
  get (spreadSet o k v) k = v.
Proof.
  induction o as [|[k' v'] o IH]; simpl.
  - now rewrite String.eqb_refl.
  - destruct (String.eqb_spec k' k) as [->|Hne]; simpl.
    + now rewrite String.eqb_refl.
    + destruct (String.eqb_spec k' k); [contradiction | exact IH].
Qed.

Lemma get_spreadSet_other (o : object) (k k' : string) (v : value) :
  k' <> k -> get (spreadSet o k v) k' = get o k'.
Proof.
  intros Hne. induction o as [|[k0 v0] o IH]; simpl.
  - destruct (String.eqb_spec k k'); [congruence | reflexivity].
  - destruct (String.eqb_spec k0 k) as [->|Hk]; simpl.
    + destruct (String.eqb_spec k k'); [congruence | reflexivity].
    + destruct (String.eqb_spec k0 k'); [reflexivity | exact IH].
Qed.

Lemma Object_keys_spreadSet (o : object) (k : string) (v : value) :
  Object_keys (spreadSet o k v) =
    if hasField o k then Object_keys o else Object_keys o ++ [k].
Proof.
  unfold hasField, Object_keys. induction o as [|[k' v'] o IH]; simpl.
  - reflexivity.
  - destruct (String.eqb_spec k' k) as [->|Hne]; simpl.
    + reflexivity.
    + rewrite IH. now destruct (existsb _ (map fst o)).
Qed.

Lemma hasField_In (o : object) (k : string) :
  hasField o k = true <-> In k (Object_keys o).
Proof.
  unfold hasField. rewrite existsb_exists. split.
  - intros [k' [Hin Heq]]. apply String.eqb_eq in Heq. now subst.
  - intros Hin. exists k. split; [exact Hin | apply String.eqb_refl].
Qed.

(** X1. After [handleFilterChange(filterValue, key)] of the version without
    handlers, the applied filters hold [filterValue] under [key] and what
    they held before under every other key. *)
Theorem handleFilterChange_sets_one_key applied filterValue k :
  get (FalsySet.handleFilterChange applied filterValue k) k = filterValue
  /\ forall k', k' <> k ->
       get (FalsySet.handleFilterChange applied filterValue k) k' = get applied k'.
Proof.
  unfold FalsySet.handleFilterChange. split.
  - apply get_spreadSet_same.
  - intros k' Hne. now apply get_spreadSet_other.
Qed.

(** X2. [handleFilterChange] keeps the enumeration of the applied filters:
    a key already applied keeps its place and no key is added, a new key
    that is not an integer key comes last; keys that were distinct stay
    distinct. *)
Theorem handleFilterChange_keeps_key_order applied filterValue k :
  (In k (Object_keys applied) ->
   Object_keys (FalsySet.handleFilterChange applied filterValue k) = Object_keys applied)
  /\ (~ In k (Object_keys applied) -> isIntegerKey k = false ->
      Object_keys (FalsySet.handleFilterChange applied filterValue k) =
        Object_keys applied ++ [k])
  /\ (NoDup (Object_keys applied) ->
      NoDup (Object_keys (FalsySet.handleFilterChange applied filterValue k))).
Proof.
  unfold FalsySet.handleFilterChange. rewrite Object_keys_spreadSet.
  destruct (hasField applied k) eqn:E.
  - apply hasField_In in E. split; [reflexivity|]. split; [contradiction | trivial].
  - assert (Hno : ~ In k (Object_keys applied)).
    { intros Hin. apply hasField_In in Hin. congruence. }
    split; [contradiction|]. split; [reflexivity|].
    intros Hnd. apply NoDup_app; [exact Hnd | repeat constructor; intros [] |].
    intros x Hx [<-|[]]. contradiction.
Qed.

Lemma handleFilterChange_keeps_key_order_witness :
  let applied := [("name", VStr "a"); ("active", VBool true)] in
  NoDup (Object_keys applied)
  /\ Object_keys (FalsySet.handleFilterChange applied (VStr "al") "name") =
       ["name"; "active"]
  /\ Object_keys (FalsySet.handleFilterChange applied (VStr "x") "globalSearch") =
       ["name"; "active"; "globalSearch"]
  /\ NoDup (Object_keys (FalsySet.handleFilterChange applied (VStr "x") "globalSearch")).
Proof.
  intros applied.
  assert (Hnd : NoDup (Object_keys applied)).
  { repeat constructor; simpl; intuition discriminate. }
  split; [exact Hnd|]. split; [|split].
  - apply (proj1 (handleFilterChange_keeps_key_order applied (VStr "al") "name")).
    simpl. now left.
  - apply (proj1 (proj2 (handleFilterChange_keeps_key_order applied (VStr "x")
                           "globalSearch"))).
    + simpl. intuition discriminate.
    + reflexivity.
  - exact (proj2 (proj2 (handleFilterChange_keeps_key_order applied (VStr "x")
                           "globalSearch")) Hnd).
Defined.

(** X3. The last value wins: two changes of the same key leave the applied
    filters as the second change alone does. *)
Theorem handleFilterChange_last_value_wins applied v w k :
  FalsySet.handleFilterChange (FalsySet.handleFilterChange applied v k) w k =
  FalsySet.handleFilterChange applied w k.
Proof.
  unfold FalsySet.handleFilterChange.
  induction applied as [|[k' v'] o IH]; simpl.
  - now rewrite String.eqb_refl.
  - destruct (String.eqb_spec k' k) as [->|Hne]; simpl.
    + now rewrite String.eqb_refl.
    + destruct (String.eqb_spec k' k); [contradiction | now rewrite IH].
Qed.

(** X4. [handleFilterChange] of the version with handlers always records the
    value in [filterValues], whatever the outcome, and leaves the rows, the
    columns and the page as they were.  A filter with an [onFilterChange]
    handler leaves [appliedFilters] untouched and ends as the handler does,
    called with the value, the key and the new [filterValues]; a filter
    without one gets the value into [appliedFilters] too. *)
Theorem handleFilterChange_records_filterValues filters st filterValue k :
  let st' := fst (Paginated.handleFilterChange filters st filterValue k) in
  let outcome := snd (Paginated.handleFilterChange filters st filterValue k) in
  Paginated.filterValues st' = spreadSet (Paginated.filterValues st) k filterValue
  /\ get (Paginated.filterValues st') k = filterValue
  /\ Paginated.renderData st' = Paginated.renderData st
  /\ Paginated.localColumns st' = Paginated.localColumns st
  /\ Paginated.pageData st' = Paginated.pageData st
  /\ (forall fd handler,
        filterData filters k = Some fd -> onFilterChange fd = Some handler ->
        Paginated.appliedFilters st' = Paginated.appliedFilters st
        /\ outcome = handler filterValue k (Paginated.filterValues st'))
  /\ (forall fd,
        filterData filters k = Some fd -> onFilterChange fd = None ->
        Paginated.appliedFilters st' =
          spreadSet (Paginated.appliedFilters st) k filterValue
        /\ outcome = Ok tt)
  /\ (filterData filters k = None ->
      Paginated.appliedFilters st' = Paginated.appliedFilters st
      /\ outcome = Throw TypeError).
Proof.
  unfold Paginated.handleFilterChange.
  destruct (filterData filters k) as [fd|];
    [destruct (onFilterChange fd) as [h|] eqn:Eh|]; simpl;
    (split; [reflexivity|]); (split; [apply get_spreadSet_same|]);
    (split; [reflexivity|]); (split; [reflexivity|]); (split; [reflexivity|]);
    (split; [|split]).
  - intros fd' h' Hfd Hh. injection Hfd as <-. rewrite Eh in Hh.
    injection Hh as <-. now split.
  - intros fd' Hfd Hh. injection Hfd as <-. congruence.
  - discriminate.
  - intros fd' h' Hfd Hh. injection Hfd as <-. congruence.
  - intros fd' _ _. now split.
  - discriminate.
  - discriminate.
  - discriminate.
  - now split.
Qed.

Lemma handleFilterChange_records_filterValues_witness :
  let quiet := mkFilter "input" "name" None in
  let handled := mkFilter "select" "status" (Some (fun _ _ _ => Ok tt)) in
  let filters := Some [quiet; handled] in
  let st := Paginated.mkState [] [] [] [] (mkPagination 1 50) in
  Paginated.appliedFilters
    (fst (Paginated.handleFilterChange filters st (VStr "al") "name"))
    = [("name", VStr "al")]
  /\ Paginated.appliedFilters
       (fst (Paginated.handleFilterChange filters st (VStr "open") "status"))
     = []
  /\ Paginated.filterValues
       (fst (Paginated.handleFilterChange filters st (VStr "open") "status"))
     = [("status", VStr "open")].
Proof.
  intros quiet handled filters st. split; [|split].
  - exact (proj1 (proj1 (proj2 (proj2 (proj2 (proj2 (proj2 (proj2
             (handleFilterChange_records_filterValues filters st (VStr "al") "name")))))))
             quiet eq_refl eq_refl)).
  - exact (proj1 (proj1 (proj2 (proj2 (proj2 (proj2 (proj2
             (handleFilterChange_records_filterValues filters st (VStr "open") "status"))))))
             handled (fun _ _ _ => Ok tt) eq_refl eq_refl)).
  - exact (proj1 (handleFilterChange_records_filterValues filters st (VStr "open") "status")).
Defined.

(** ** The filtering effect, continued *)

Lemma Array_filter_all {A : Type} (f : A -> result bool) (l : list A) :
  (forall x, In x l -> f x = Ok true) -> Array_filter f l = Ok l.
Proof.
  induction l as [|x l IH]; intros H; simpl.
  - reflexivity.
  - rewrite (H x (or_introl eq_refl)). simpl.
    rewrite IH by (intros y Hy; apply H; now right). reflexivity.
Qed.

Lemma Array_filter_kept {A : Type} (f : A -> result bool) (l out : list A) :
  Array_filter f l = Ok out -> forall x, In x out -> f x = Ok true.
Proof.
  revert out; induction l as [|x l IH]; intros out; simpl.
  - intros [= <-] y [].
  - destruct (f x) as [b|e] eqn:Ex; simpl; [|discriminate].
    destruct (Array_filter f l) as [kept|e]; simpl; [|discriminate].
    intros [= <-] y Hy. destruct b.
    + destruct Hy as [<-|Hy]; [exact Ex | now apply (IH kept)].
    + now apply (IH kept).
Qed.


(** X6. Filtering is idempotent: run on its own result with the same
    filters, the effect returns that result unchanged. *)
Theorem filteredData_idempotent data filters applied out :
  filteredData data filters applied = Ok out ->
  filteredData out filters applied = Ok out.
Proof.
  unfold filteredData. intros H.
  apply Array_filter_all. exact (Array_filter_kept _ _ _ H).
Qed.

Lemma filteredData_idempotent_witness :
  let filters := Some [mkFilter "input" "name" None] in
  let applied := [("name", VStr "a")] in
  let r1 := [("name", VStr "Al")] in
  let r2 := [("name", VStr "Bo")] in
  let r3 := [("name", VStr "Ada")] in
  filteredData [r1; r2; r3] filters applied = Ok [r1; r3]
  /\ filteredData [r1; r3] filters applied = Ok [r1; r3].
Proof.
  intros filters applied r1 r2 r3. split; [reflexivity|].
  exact (filteredData_idempotent [r1; r2; r3] filters applied [r1; r3] eq_refl).
Defined.

Lemma matchFilter_same_applied_value filters applied applied' item k :
  get applied' k = get applied k ->
  matchFilter filters applied' item k = matchFilter filters applied item k.
Proof. unfold matchFilter. now intros ->. Qed.

Lemma Array_every_app {A : Type} (f : A -> result bool) (l l' : list A) :
  Array_every f (l ++ l') =
    (b <- Array_every f l ;; if b : bool then Array_every f l' else Ok false).
Proof.
  induction l as [|x l IH]; simpl.
  - reflexivity.
  - destruct (f x) as [[|]|e]; simpl; [exact IH | reflexivity | reflexivity].
Qed.

Lemma Array_every_same {A : Type} (f g : A -> result bool) (l : list A) :
  (forall x, In x l -> f x = g x) -> Array_every f l = Array_every g l.
Proof.
  induction l as [|x l IH]; intros H; simpl.
  - reflexivity.
  - rewrite (H x (or_introl eq_refl)).
    rewrite IH by (intros y Hy; apply H; now right). reflexivity.
Qed.

Lemma rowPasses_new_key filters applied item k v :
  ~ In k (Object_keys applied) ->
  rowPasses filters (spreadSet applied k v) item =
    (b <- rowPasses filters applied item ;;
     if b : bool
     then b' <- matchFilter filters (spreadSet applied k v) item k ;;
          if b' : bool then Ok true else Ok false
     else Ok false).
Proof.
  intros Hno. unfold rowPasses.
  assert (E : hasField applied k = false).
  { destruct (hasField applied k) eqn:E; [|reflexivity].
    apply hasField_In in E. contradiction. }
  rewrite Object_keys_spreadSet, E, Array_every_app.
  rewrite (Array_every_same (matchFilter filters (spreadSet applied k v) item)
                            (matchFilter filters applied item)).
  - reflexivity.
  - intros k' Hk'. apply matchFilter_same_applied_value.
    apply get_spreadSet_other. intros ->. contradiction.
Qed.

Lemma Array_filter_narrowed {A : Type} (f f' : A -> result bool) (g : A -> bool)
    (l out' : list A) :
  (forall x b', f' x = Ok b' -> exists b, f x = Ok b /\ b' = b && g x) ->
  Array_filter f' l = Ok out' ->
  exists out, Array_filter f l = Ok out /\ out' = List.filter g out.
Proof.
  intros Hff. revert out'; induction l as [|x l IH]; intros out'; simpl.
  - intros [= <-]. now exists [].
  - destruct (f' x) as [b'|e] eqn:Ex; simpl; [|discriminate].
    destruct (Array_filter f' l) as [kept'|e]; simpl; [|discriminate].
    intros [= <-].
    destruct (Hff x b' Ex) as [b [Efx ->]].
    destruct (IH kept' eq_refl) as [kept [Ekept ->]].
    rewrite Efx, Ekept. simpl.
    destruct b; simpl.
    + exists (x :: kept). split; [reflexivity|]. simpl. now destruct (g x).
    + exists kept. now split.
Qed.

(** X7. Applying one more filter narrows the result.  When the effect
    returns with a new key added to the applied filters, the key not being
    an integer key, it also returns without that key, and the rows with the
    key are the rows without it that match the new filter, in the same
    order. *)
Theorem filteredData_narrows_with_new_key data filters applied k v out' :
  ~ In k (Object_keys applied) ->
  isIntegerKey k = false ->
  filteredData data filters (spreadSet applied k v) = Ok out' ->
  exists out,
    filteredData data filters applied = Ok out
    /\ out' = List.filter
                (fun item => isOkTrue (matchFilter filters (spreadSet applied k v) item k))
                out
    /\ incl out' out.
Proof.
  intros Hno _ H. unfold filteredData in *.
  destruct (Array_filter_narrowed
              (rowPasses filters applied)
              (rowPasses filters (spreadSet applied k v))
              (fun item => isOkTrue (matchFilter filters (spreadSet applied k v) item k))
              data out') as [out [Eout Efil]].
  - intros item b'. rewrite (rowPasses_new_key _ _ _ _ _ Hno).
    destruct (rowPasses filters applied item) as [[|]|e]; simpl.
    + destruct (matchFilter filters (spreadSet applied k v) item k) as [[|]|e]; simpl;
        [intros [= <-]; now exists true
        |intros [= <-]; now exists true
        |discriminate].
    + intros [= <-]. now exists false.
    + discriminate.
  - exact H.
  - exists out. split; [exact Eout|]. split; [exact Efil|].
    rewrite Efil. intros x Hx. apply filter_In in Hx. tauto.
Qed.

Lemma filteredData_narrows_with_new_key_witness :
  let filters := Some [mkFilter "input" "name" None; mkFilter "toggle" "active" None] in
  let applied := [("name", VStr "a")] in
  let r1 := [("name", VStr "Al"); ("active", VBool true)] in
  let r2 := [("name", VStr "Bo"); ("active", VBool true)] in
  let r3 := [("name", VStr "Ada"); ("active", VBool false)] in
  filteredData [r1; r2; r3] filters (spreadSet applied "active" (VBool true)) = Ok [r1]
  /\ exists out,
       filteredData [r1; r2; r3] filters applied = Ok out /\ incl [r1] out.
Proof.
  intros filters applied r1 r2 r3. split; [reflexivity|].
  destruct (filteredData_narrows_with_new_key [r1; r2; r3] filters applied
              "active" (VBool true) [r1]) as [out [Eout [_ Hincl]]].
  - simpl. intuition discriminate.
  - reflexivity.
  - reflexivity.
  - exists out. now split.
Defined.

(** ** The matching rules, continued *)

Lemma matchFilter_default_string filters applied item k s :
  defaultBranch filters k = true ->
  get applied k = VStr s ->
  matchFilter filters applied item k =
    Ok (existsb
          (fun f => includes (toLowerCase (js_String (get item f))) (toLowerCase s))
          (Object_keys item)).
Proof.
  intros D Hs. rewrite (matchFilter_default _ _ _ _ D), Hs.
  apply Array_some_search.
Qed.

Lemma get_absent (o : object) (k : string) :
  hasField o k = false -> get o k = VUndefined.
Proof.
  unfold hasField, Object_keys.
  induction o as [|[k' v] o IH]; simpl; [reflexivity|].
  destruct (k' =? k)%string; [discriminate | exact IH].
Qed.

Lemma substringOf_refl (s : string) : substringOf s s.
Proof.
  exists EmptyString, EmptyString. simpl.
  induction s as [|c s IH]; simpl; [reflexivity | now rewrite <- IH].
Qed.

Lemma lowerChar_idempotent (c : ascii) : lowerChar (lowerChar c) = lowerChar c.
Proof. destruct c as [[|] [|] [|] [|] [|] [|] [|] [|]]; reflexivity. Qed.

Lemma toLowerCase_idempotent (s : string) :
  toLowerCase (toLowerCase s) = toLowerCase s.
Proof.
  induction s as [|c s IH]; simpl; [reflexivity|].
  now rewrite lowerChar_idempotent, IH.
Qed.

Lemma toLowerCase_parseData (v : value) :
  toLowerCase (parseData v) = toLowerCase (js_String v).
Proof. destruct v as [| |[|]|n|s]; reflexivity. Qed.

(** X8. A filter definition whose type is none of select, input and toggle
    is matched like the global search: an applied string is looked for in
    every field of the row, not in the field the definition names. *)
Theorem unknown_filter_type_searches_every_field filters applied item k fd s :
  filterData filters k = Some fd ->
  type fd <> "select" -> type fd <> "input" -> type fd <> "toggle" ->
  get applied k = VStr s ->
  matchFilter filters applied item k =
    Ok (existsb
          (fun f => includes (toLowerCase (js_String (get item f))) (toLowerCase s))
          (Object_keys item))
  /\ (matchFilter filters applied item k = Ok true
      <-> exists f, In f (Object_keys item)
                    /\ substringOf (toLowerCase s) (toLowerCase (js_String (get item f)))).
Proof.
  intros Hfd Hs Hi Ht Happ.
  assert (D : defaultBranch filters k = true).
  { unfold defaultBranch. rewrite (filterType_found _ _ _ Hfd).
    destruct (String.eqb_spec (type fd) "select"); [contradiction|].
    destruct (String.eqb_spec (type fd) "input"); [contradiction|].
    destruct (String.eqb_spec (type fd) "toggle"); [contradiction|].
    reflexivity. }
  assert (E := matchFilter_default_string filters applied item k s D Happ).
  split; [exact E|]. rewrite E. split.
  - intros [= H]. apply existsb_exists in H. destruct H as [f [Hin Hinc]].
    exists f. split; [exact Hin | now apply includes_substring].
  - intros [f [Hin Hsub]]. f_equal. apply existsb_exists.
    exists f. split; [exact Hin | now apply includes_substring].
Qed.

(** A filter of type "date" on the field "born", applied with "al": the row
    matches through its field "name". *)
Lemma unknown_filter_type_searches_every_field_witness :
  let fd := mkFilter "date" "born" None in
  let filters := Some [fd] in
  let applied := [("born", VStr "al")] in
  filterData filters "born" = Some fd
  /\ matchFilter filters applied
       [("name", VStr "Al"); ("born", VStr "1990")] "born" = Ok true.
Proof.
  intros fd filters applied. split; [reflexivity|].
  refine (proj1 (unknown_filter_type_searches_every_field filters applied
                   [("name", VStr "Al"); ("born", VStr "1990")] "born" fd "al"
                   eq_refl _ _ _ eq_refl)); discriminate.
Defined.

(** X9. A row that lacks the filtered field, the field not being a name
    [Object.prototype] defines, is matched on [undefined]: a select filter
    matches it exactly when the applied value converts to the string
    "undefined", an input filter when the lower-cased applied string is a
    substring of "undefined", a toggle filter when the applied value is
    falsy.  None of them raises. *)
Theorem missing_field_matches_as_undefined filters applied item k :
  isInheritedName k = false ->
  hasField item k = false ->
  (filterType filters k = "select" ->
   (matchFilter filters applied item k = Ok true
    <-> js_String (get applied k) = "undefined")
   /\ exists b, matchFilter filters applied item k = Ok b)
  /\ (filterType filters k = "input" ->
      (matchFilter filters applied item k = Ok true
       <-> substringOf (toLowerCase (js_String (get applied k))) "undefined")
      /\ exists b, matchFilter filters applied item k = Ok b)
  /\ (filterType filters k = "toggle" ->
      (matchFilter filters applied item k = Ok true
       <-> js_Boolean (get applied k) = false)
      /\ exists b, matchFilter filters applied item k = Ok b).
Proof.
  intros _ Hno. assert (Hu := get_absent item k Hno).
  split; [|split]; intros Hty.
  - rewrite (matchFilter_select _ _ _ _ Hty), Hu. split; [|eauto].
    change (js_String VUndefined) with "undefined".
    destruct (String.eqb_spec "undefined" (js_String (get applied k))) as [E|E];
      split; intros H; congruence.
  - rewrite (matchFilter_input _ _ _ _ Hty), Hu. split; [|eauto].
    change (toLowerCase (js_String VUndefined)) with "undefined".
    rewrite <- includes_substring.
    destruct (includes "undefined" (toLowerCase (js_String (get applied k))));
      split; congruence.
  - rewrite (matchFilter_toggle _ _ _ _ Hty), Hu. split; [|eauto]. simpl.
    destruct (js_Boolean (get applied k)); simpl; split; intros H;
      try reflexivity; discriminate.
Qed.

(** Rows without the field "city": the input filter "fin" matches them (it
    occurs in "undefined") and the input filter "rome" does not; an
    unchecked toggle matches them. *)
Lemma missing_field_matches_as_undefined_witness :
  let filters := Some [mkFilter "input" "city" None; mkFilter "toggle" "vip" None] in
  let row := [("name", VStr "Al")] in
  isInheritedName "city" = false
  /\ hasField row "city" = false
  /\ matchFilter filters [("city", VStr "fin")] row "city" = Ok true
  /\ matchFilter filters [("city", VStr "rome")] row "city" = Ok false
  /\ matchFilter filters [("vip", VBool false)] row "vip" = Ok true.
Proof.
  intros filters row. split; [reflexivity|]. split; [reflexivity|]. split; [|split].
  - apply (proj1 (proj2 (missing_field_matches_as_undefined filters
                           [("city", VStr "fin")] row "city" eq_refl eq_refl)) eq_refl).
    exists "unde"%string, "ed"%string. reflexivity.
  - reflexivity.
  - apply (proj2 (proj2 (missing_field_matches_as_undefined filters
                           [("vip", VBool false)] row "vip" eq_refl eq_refl)) eq_refl).
    reflexivity.
Defined.

(** X10. Searching for what a cell shows finds its row.  When the applied
    string of a global search equals, letter case apart, the text
    [parseData] displays for some field of the row, the row matches; so the
    displayed "True" is found by "true". *)
Theorem globalSearch_finds_displayed_text filters applied item k f s :
  defaultBranch filters k = true ->
  In f (Object_keys item) ->
  get applied k = VStr s ->
  toLowerCase s = toLowerCase (parseData (get item f)) ->
  matchFilter filters applied item k = Ok true.
Proof.
  intros D Hin Hs Hlow.
  rewrite (matchFilter_default_string _ _ _ _ _ D Hs). f_equal.
  apply existsb_exists. exists f. split; [exact Hin|].
  rewrite Hlow, toLowerCase_parseData. apply includes_substring, substringOf_refl.
Qed.

Lemma globalSearch_finds_displayed_text_witness :
  let row := [("name", VStr "Al"); ("active", VBool true)] in
  parseData (get row "active") = "True"
  /\ matchFilter None [("globalSearch", VStr "TRUE")] row "globalSearch" = Ok true.
Proof.
  intros row. split; [reflexivity|].
  exact (globalSearch_finds_displayed_text None [("globalSearch", VStr "TRUE")] row
           "globalSearch" "active" "TRUE" eq_refl
           (or_intror (or_introl eq_refl)) eq_refl eq_refl).
Defined.

(** X11. The input filter and the global search do not see letter case in
    the applied string: two applied strings with the same lower-cased form
    give the same outcome on every row, as does the lower-cased form
    itself. *)
Theorem matching_ignores_case_of_applied_string filters applied applied' item k s s' :
  filterType filters k = "input" \/ defaultBranch filters k = true ->
  get applied k = VStr s ->
  get applied' k = VStr s' ->
  toLowerCase s' = toLowerCase s \/ s' = toLowerCase s ->
  matchFilter filters applied' item k = matchFilter filters applied item k.
Proof.
  intros Hty Hs Hs' Hlow.
  assert (E : toLowerCase s' = toLowerCase s).
  { destruct Hlow as [H| ->]; [exact H | apply toLowerCase_idempotent]. }
  destruct Hty as [Hty|D].
  - rewrite !(matchFilter_input _ _ _ _ Hty), Hs, Hs'. simpl. now rewrite E.
  - rewrite (matchFilter_default_string _ _ _ _ _ D Hs),
            (matchFilter_default_string _ _ _ _ _ D Hs'). now rewrite E.
Qed.

Lemma matching_ignores_case_of_applied_string_witness :
  let filters := Some [mkFilter "input" "name" None] in
  let row := [("name", VStr "Anna")] in
  matchFilter filters [("name", VStr "aN")] row "name"
  = matchFilter filters [("name", VStr "AN")] row "name"
  /\ matchFilter filters [("name", VStr "AN")] row "name" = Ok true.
Proof.
  intros filters row. split; [|reflexivity].
  exact (matching_ignores_case_of_applied_string filters
           [("name", VStr "AN")] [("name", VStr "aN")] row "name" "AN" "aN"
           (or_introl eq_refl) eq_refl eq_refl (or_introl eq_refl)).
Defined.

Lemma Array_filter_raising_rows (f : object -> result bool) (data : list object) :
  (forall item, item = [] -> f item = Ok false) ->
  (forall item, item <> [] -> f item = Throw TypeError) ->
  Array_filter f data =
    if forallb (fun item => match item with [] => true | _ => false end) data
    then Ok [] else Throw TypeError.
Proof.
  intros Hempty Hfull. induction data as [|item data IH]; simpl.
  - reflexivity.
  - destruct item as [|p item].
    + rewrite (Hempty [] eq_refl). simpl. rewrite IH.
      match goal with |- context [forallb ?g data] => now destruct (forallb g data) end.
    + now rewrite (Hfull (p :: item)) by discriminate.
Qed.

(** X12. A global search whose applied value is not a string raises a
    TypeError on every row that has a field and gives no match on a row
    without fields.  As the only applied filter it makes the whole effect
    raise as soon as one row has a field; with no such row the effect
    returns no row. *)
Theorem globalSearch_on_non_string_raises filters k v :
  defaultBranch filters k = true ->
  isString v = false ->
  (forall item, item <> [] -> matchFilter filters [(k, v)] item k = Throw TypeError)
  /\ matchFilter filters [(k, v)] [] k = Ok false
  /\ forall data,
       filteredData data filters [(k, v)] =
         if forallb (fun item => match item with [] => true | _ => false end) data
         then Ok [] else Throw TypeError.
Proof.
  intros D Hv.
  assert (Hget : get [(k, v)] k = v) by (simpl; now rewrite String.eqb_refl).
  assert (Hfull : forall item, item <> [] ->
                    matchFilter filters [(k, v)] item k = Throw TypeError).
  { intros item Hne. apply matchFilter_default_raises; [exact D | | exact Hne].
    now rewrite Hget. }
  assert (Hempty : matchFilter filters [(k, v)] [] k = Ok false)
    by (now rewrite (matchFilter_default _ _ _ _ D)).
  split; [exact Hfull | split; [exact Hempty|]].
  intros data. unfold filteredData. apply Array_filter_raising_rows.
  - intros item ->. unfold rowPasses. simpl. now rewrite Hempty.
  - intros item Hne. unfold rowPasses. simpl. now rewrite (Hfull item Hne).
Qed.

Lemma globalSearch_on_non_string_raises_witness :
  filteredData [[]; [("name", VStr "Al")]] None [("globalSearch", VBool true)]
  = Throw TypeError
  /\ filteredData [[]; []] None [("globalSearch", VNum (Finite 1))] = Ok [].
Proof.
  split.
  - exact (proj2 (proj2 (globalSearch_on_non_string_raises None "globalSearch"
                           (VBool true) eq_refl eq_refl))
                 [[]; [("name", VStr "Al")]]).
  - exact (proj2 (proj2 (globalSearch_on_non_string_raises None "globalSearch"
                           (VNum (Finite 1)) eq_refl eq_refl))
                 [[]; []]).
Defined.

(** ** Pagination, continued *)

Lemma firstn_plus_skipn {A : Type} (a b : nat) (l : list A) :
  firstn (a + b) l = firstn a l ++ firstn b (skipn a l).
Proof.
  revert l; induction a as [|a IH]; intros l; simpl.
  - reflexivity.
  - destruct l as [|x l]; simpl.
    + now rewrite firstn_nil.
    + now rewrite IH.
Qed.

Lemma pagesUpTo_firstn renderData pl (k : nat) :
  1 <= pl ->
  pagesUpTo renderData pl k = firstn (k * Z.to_nat pl) renderData.
Proof.
  intros Hp. unfold pagesUpTo. induction k as [|k IH].
  - reflexivity.
  - rewrite seq_S, map_app, concat_app, IH.
    cbn [map List.concat Nat.add].
    rewrite app_nil_r, paginatedData_window by (cbn [currentPage pageLength]; lia).
    cbn [currentPage pageLength].
    replace (S k * Z.to_nat pl)%nat with (k * Z.to_nat pl + Z.to_nat pl)%nat by lia.
    rewrite firstn_plus_skipn. do 3 f_equal. lia.
Qed.

(** X13. The pages tile the rows: for a page length of at least one, the
    pages 1 to [k] in sequence are the first [k * pageLength] rows.  The
    pages the pagination block offers therefore show every row but the
    last [n mod pageLength]. *)
Theorem pages_tile_the_rows renderData pl :
  1 <= pl ->
  let n := Z.of_nat (List.length renderData) in
  (forall k : nat,
     pagesUpTo renderData pl k = firstn (k * Z.to_nat pl) renderData)
  /\ pagesUpTo renderData pl (Z.to_nat (n / pl))
     ++ skipn (Z.to_nat (pl * (n / pl))) renderData = renderData
  /\ Z.of_nat (List.length (skipn (Z.to_nat (pl * (n / pl))) renderData)) = n mod pl
  /\ pagesUpTo renderData pl (Z.to_nat (n / pl) + 1) = renderData.
Proof.
  intros Hp n.
  assert (Hq : 0 <= n / pl) by (apply Z.div_pos; lia).
  assert (Hdiv := Z.div_mod n pl ltac:(lia)).
  assert (Hmod := Z.mod_pos_bound n pl ltac:(lia)).
  split; [intros k; now apply pagesUpTo_firstn|]. split; [|split].
  - rewrite pagesUpTo_firstn by exact Hp.
    replace (Z.to_nat (n / pl) * Z.to_nat pl)%nat with (Z.to_nat (pl * (n / pl))) by nia.
    apply firstn_skipn.
  - rewrite length_skipn. unfold n in *. lia.
  - rewrite pagesUpTo_firstn by exact Hp. apply firstn_all2. unfold n in *. nia.
Qed.

Lemma pages_tile_the_rows_witness :
  let rows := map (fun i => [("id", VNum (Finite (Z.of_nat i)))]) (seq 0 7) in
  pagesUpTo rows 3 2 = firstn 6 rows
  /\ Z.of_nat (List.length (skipn 6 rows)) = 1
  /\ pagesUpTo rows 3 3 = rows.
Proof.
  intros rows.
  assert (Hp : 1 <= 3) by lia.
  split; [|split].
  - exact (proj1 (pages_tile_the_rows rows 3 Hp) 2%nat).
  - exact (proj1 (proj2 (proj2 (pages_tile_the_rows rows 3 Hp)))).
  - exact (proj2 (proj2 (proj2 (pages_tile_the_rows rows 3 Hp)))).
Defined.

Lemma pageNumbers_of_nonpositive_length renderData pagination :
  pageLength pagination <= 0 ->
  Paginated.pageNumbers renderData pagination =
    if Z.of_nat (List.length renderData) =? 0
    then (if pageLength pagination =? 0 then Ok None else Ok (Some []))
    else Throw RangeError.
Proof.
  intros Hp. unfold Paginated.pageNumbers, Paginated.pageCount, Math_floor_div.
  set (n := Z.of_nat (List.length renderData)).
  set (pl := pageLength pagination) in *.
  assert (Hn : 0 <= n) by (unfold n; lia).
  destruct (Z.eqb_spec n 0) as [E0|Hn0].
  - rewrite E0. destruct (Z.eqb_spec pl 0) as [->|Hpl].
    + reflexivity.
    + destruct (Z.gtb_spec 0 pl) as [_|?]; [|lia].
      rewrite <- Zdiv_Qdiv. reflexivity.
  - destruct (Z.gtb_spec n pl) as [_|?]; [|lia].
    destruct (Z.eqb_spec pl 0) as [_|Hpl].
    + reflexivity.
    + rewrite <- Zdiv_Qdiv. simpl.
      assert (Hneg : n / pl < 0).
      { assert (Hdiv := Z.div_mod n pl Hpl).
        assert (Hmod := Z.mod_neg_bound n pl ltac:(lia)). nia. }
      destruct (Z.ltb_spec (n / pl) 0) as [_|?]; [reflexivity | lia].
Qed.

(** X14. A page length of zero or less is not checked: with at least one
    row, rendering the pagination block raises a RangeError at [Array(...)].
    Without rows nothing is raised. *)
Theorem pageNumbers_raises_on_nonpositive_pageLength renderData pagination :
  pageLength pagination <= 0 ->
  (renderData <> [] ->
   Paginated.pageNumbers renderData pagination = Throw RangeError)
  /\ (renderData = [] ->
      exists shown, Paginated.pageNumbers renderData pagination = Ok shown
                    /\ (shown = None \/ shown = Some [])).
Proof.
  intros Hp. rewrite (pageNumbers_of_nonpositive_length _ _ Hp). split.
  - intros Hne. destruct renderData as [|item data]; [contradiction | reflexivity].
  - intros ->. simpl. destruct (pageLength pagination =? 0); eauto.
Qed.

Lemma pageNumbers_raises_on_nonpositive_pageLength_witness :
  Paginated.pageNumbers [[("id", VNum (Finite 1))]] (mkPagination 1 0) = Throw RangeError
  /\ Paginated.pageNumbers [[("id", VNum (Finite 1))]] (mkPagination 1 (-5))
     = Throw RangeError.
Proof.
  split.
  - apply (proj1 (pageNumbers_raises_on_nonpositive_pageLength
                    [[("id", VNum (Finite 1))]] (mkPagination 1 0) ltac:(simpl; lia))).
    discriminate.
  - apply (proj1 (pageNumbers_raises_on_nonpositive_pageLength
                    [[("id", VNum (Finite 1))]] (mkPagination 1 (-5)) ltac:(simpl; lia))).
    discriminate.
Defined.

(** X15. Every page number the pagination block offers leads to a full
    page: after [setPageNumber(p)] for an offered [p], the current page is
    [p], the page length, the rows and the filters are unchanged, and the
    page holds exactly [pageLength] rows. *)
Theorem offered_page_is_full st pagination ps p :
  pageLength (Paginated.pageData st) = pageLength pagination ->
  Paginated.pageNumbers (Paginated.renderData st) pagination = Ok (Some ps) ->
  In p ps ->
  let st' := Paginated.setPageNumber st p in
  currentPage (Paginated.pageData st') = p
  /\ pageLength (Paginated.pageData st') = pageLength pagination
  /\ Paginated.renderData st' = Paginated.renderData st
  /\ Paginated.appliedFilters st' = Paginated.appliedFilters st
  /\ Z.of_nat (List.length (Paginated.paginatedData (Paginated.renderData st')
                                                    (Paginated.pageData st')))
     = pageLength pagination.
Proof.
  intros Hpl Hps Hin st'.
  set (rows := Paginated.renderData st) in *.
  set (n := Z.of_nat (List.length rows)).
  set (pl := pageLength pagination) in *.
  assert (Hpos : 1 <= pl).
  { destruct (Z_le_gt_dec pl 0) as [Hle|?]; [|lia].
    rewrite (pageNumbers_of_nonpositive_length rows pagination Hle) in Hps.
    destruct (Z.of_nat (List.length rows) =? 0); [|discriminate].
    destruct (pageLength pagination =? 0); [discriminate|].
    injection Hps as <-. destruct Hin. }
  assert (Hp : 1 <= p <= n / pl).
  { unfold Paginated.pageNumbers in Hps. fold n in Hps. fold pl in Hps.
    destruct (n >? pl); [|discriminate].
    unfold Paginated.pageCount in Hps. fold n in Hps. fold pl in Hps.
    rewrite (Math_floor_div_pos n pl Hpos) in Hps. simpl in Hps.
    assert (Hq : 0 <= n / pl) by (apply Z.div_pos; unfold n; lia).
    destruct (Z.ltb_spec (n / pl) 0) as [?|_]; [lia|].
    simpl in Hps. rewrite map_succ_seq in Hps. injection Hps as <-.
    apply In_page_numbers in Hin. lia. }
  assert (Hdiv := Z.div_mod n pl ltac:(lia)).
  assert (Hmod := Z.mod_pos_bound n pl ltac:(lia)).
  split; [reflexivity|]. split; [exact Hpl|]. split; [reflexivity|].
  split; [reflexivity|].
  unfold st'. simpl. rewrite paginatedData_length; simpl; rewrite ?Hpl; fold pl; try lia.
  fold rows. fold n. nia.
Qed.

Lemma offered_page_is_full_witness :
  let rows := map (fun i => [("id", VNum (Finite (Z.of_nat i)))]) (seq 0 7) in
  let st := Paginated.mkState rows [] [] [] (mkPagination 1 3) in
  Paginated.pageNumbers rows (mkPagination 1 3) = Ok (Some [1; 2])
  /\ Z.of_nat (List.length (Paginated.paginatedData rows
                 (Paginated.pageData (Paginated.setPageNumber st 2)))) = 3.
Proof.
  intros rows st. split; [reflexivity|].
  exact (proj2 (proj2 (proj2 (proj2
           (offered_page_is_full st (mkPagination 1 3) [1; 2] 2
              eq_refl eq_refl (or_intror (or_introl eq_refl))))))).
Defined.

Lemma firstn_nonpositive {A : Type} (z : Z) (l : list A) :
  z <= 0 -> firstn (Z.to_nat z) l = [].
Proof. intros Hz. now replace (Z.to_nat z) with 0%nat by lia. Qed.

(** X16. Page numbers and page lengths outside their range do not raise.
    Page 0 and a page length of 0 show no row.  A negative page [-j] counts
    from the end: when [(j+1) * pageLength] rows exist, it shows the
    [pageLength] rows that end [j * pageLength] rows before the last one. *)
Theorem paginatedData_outside_range renderData :
  (forall pl, Paginated.paginatedData renderData (mkPagination 0 pl) = [])
  /\ (forall page, Paginated.paginatedData renderData (mkPagination page 0) = [])
  /\ (forall j pl,
        1 <= j -> 1 <= pl ->
        (j + 1) * pl <= Z.of_nat (List.length renderData) ->
        Paginated.paginatedData renderData (mkPagination (- j) pl) =
          firstn (Z.to_nat pl)
                 (skipn (Z.to_nat (Z.of_nat (List.length renderData) - (j + 1) * pl))
                        renderData)).
Proof.
  unfold Paginated.paginatedData, Array_slice. cbn [currentPage pageLength].
  set (n := Z.of_nat (List.length renderData)).
  assert (Hn : 0 <= n) by (unfold n; lia).
  split; [|split].
  - intros pl. apply firstn_nonpositive.
    repeat match goal with
           | |- context [?a <? ?b] => destruct (Z.ltb_spec a b)
           end; lia.
  - intros page. apply firstn_nonpositive.
    repeat match goal with
           | |- context [?a <? ?b] => destruct (Z.ltb_spec a b)
           end; lia.
  - intros j pl Hj Hp Hlen.
    destruct (Z.ltb_spec ((- j - 1) * pl) 0) as [_|?]; [|nia].
    destruct (Z.ltb_spec (pl * - j) 0) as [_|?]; [|nia].
    f_equal; [|f_equal]; nia.
Qed.

Lemma paginatedData_outside_range_witness :
  let rows := map (fun i => [("id", VNum (Finite (Z.of_nat i)))]) (seq 0 7) in
  Paginated.paginatedData rows (mkPagination (-1) 3) = firstn 3 (skipn 1 rows)
  /\ Paginated.paginatedData rows (mkPagination 0 3) = [].
Proof.
  intros rows. split.
  - exact (proj2 (proj2 (paginatedData_outside_range rows)) 1 3
             ltac:(lia) ltac:(lia) ltac:(simpl; lia)).
  - exact (proj1 (paginatedData_outside_range rows) 3).
Defined.

(** ** Decimal numerals *)

Lemma to_int_is_normal (z : Z) :
  Z.to_int z <> Decimal.Pos Decimal.Nil /\ Z.to_int z <> Decimal.Neg Decimal.Nil.
Proof.
  assert (E : Z.to_int z = Decimal.norm (Z.to_int z))
    by (rewrite <- DecimalZ.to_of; now rewrite DecimalZ.of_to).
  rewrite E. destruct (Z.to_int z) as [d|d]; simpl.
  - split; [|discriminate]. intros [= H]. now apply (DecimalFacts.unorm_nonnil d).
  - destruct (Decimal.nzhead d); split; discriminate.
Qed.

Lemma Number_toString_Finite_inj (a b : Z) :
  Number_toString (Finite a) = Number_toString (Finite b) -> a = b.
Proof.
  unfold Number_toString. intros H. apply DecimalZ.to_int_inj.
  assert (Hread : forall z, NilZero.int_of_string (NilZero.string_of_int (Z.to_int z))
                            = Some (Z.to_int z)).
  { intros z. destruct (to_int_is_normal z). now apply NilZero.isi. }
  assert (E : Some (Z.to_int a) = Some (Z.to_int b))
    by (rewrite <- !Hread; now rewrite H).
  now injection E.
Qed.

Lemma digits_without_dash (d : Decimal.uint) :
  occurs "-" (NilEmpty.string_of_uint d) = false.
Proof. induction d; simpl; try reflexivity; exact IHd. Qed.

Lemma indexString_without_dash (index : nat) :
  occurs "-" (indexString index) = false.
Proof.
  unfold indexString, Number_toString.
  destruct (Z.of_nat index) as [|p|p] eqn:E.
  - reflexivity.
  - unfold Z.to_int, NilZero.string_of_int, NilZero.string_of_uint.
    destruct (Pos.to_uint p); try reflexivity; apply (digits_without_dash _).
  - lia.
Qed.

Lemma indexString_inj (i j : nat) : indexString i = indexString j -> i = j.
Proof.
  unfold indexString. intros H. apply Number_toString_Finite_inj in H. lia.
Qed.

(** X17. A select filter on an integer field is exact on numbers: when the
    row holds the integer [b] and the applied value is the integer [a], as
    a number or as its decimal string, both of magnitude below 2^53, the
    row matches exactly when [a = b]. *)
Theorem select_on_integer_field filters applied item k a b :
  isSafeInteger a = true ->
  isSafeInteger b = true ->
  filterType filters k = "select" ->
  get item k = VNum (Finite b) ->
  js_String (get applied k) = Number_toString (Finite a) ->
  (matchFilter filters applied item k = Ok true <-> a = b)
  /\ exists r, matchFilter filters applied item k = Ok r.
Proof.
  intros _ _ Hty Hitem Happ.
  rewrite (matchFilter_select _ _ _ _ Hty), Hitem, Happ.
  change (js_String (VNum (Finite b))) with (Number_toString (Finite b)).
  split; [|eauto].
  destruct (String.eqb_spec (Number_toString (Finite b)) (Number_toString (Finite a)))
    as [E|E].
  - apply Number_toString_Finite_inj in E. split; congruence.
  - split; [discriminate | intros ->; contradiction].
Qed.

Lemma select_on_integer_field_witness :
  let filters := Some [mkFilter "select" "age" None] in
  matchFilter filters [("age", VStr "30")] [("age", VNum (Finite 30))] "age" = Ok true
  /\ (matchFilter filters [("age", VNum (Finite 3))] [("age", VNum (Finite 30))] "age"
      = Ok true -> False).
Proof.
  intros filters. split.
  - apply (proj1 (select_on_integer_field filters [("age", VStr "30")]
                    [("age", VNum (Finite 30))] "age" 30 30
                    eq_refl eq_refl eq_refl eq_refl eq_refl)).
    reflexivity.
  - intros H.
    apply (proj1 (select_on_integer_field filters [("age", VNum (Finite 3))]
                    [("age", VNum (Finite 30))] "age" 3 30
                    eq_refl eq_refl eq_refl eq_refl eq_refl)) in H.
    discriminate H.
Defined.

(** ** Lookup of the filter definition, continued *)

(** X18. The lookup takes the first definition with the key's dataIndex:
    [filterData] is [fd] exactly when the filters are some definitions that
    do not carry the key, then [fd], which carries it, then anything.
    Later definitions for the same dataIndex take no part in matching. *)
Theorem filterData_is_first_definition filters k fd :
  filterData filters k = Some fd
  <-> exists before after,
        getFilters filters = before ++ fd :: after
        /\ dataIndex fd = k
        /\ forall fd', In fd' before -> dataIndex fd' <> k.
Proof.
  unfold filterData. induction (getFilters filters) as [|x fs IH]; simpl.
  - split; [discriminate|]. intros [before [after [H _]]].
    destruct before; discriminate.
  - destruct (String.eqb_spec (dataIndex x) k) as [E|E]; simpl.
    + split.
      * intros [= <-]. exists [], fs. repeat split; [exact E | intros fd' []].
      * intros [before [after [H [Hk Hbefore]]]].
        destruct before as [|y before]; simpl in H.
        -- now injection H as -> _.
        -- injection H as -> _. exfalso. apply (Hbefore y); [now left | exact E].
    + rewrite IH. split.
      * intros [before [after [H [Hk Hbefore]]]].
        exists (x :: before), after. simpl. rewrite H. repeat split; [exact Hk|].
        intros fd' [<-|Hin]; [exact E | now apply Hbefore].
      * intros [before [after [H [Hk Hbefore]]]].
        destruct before as [|y before]; simpl in H.
        -- injection H as -> _. contradiction.
        -- injection H as -> ->. exists before, after. repeat split; [exact Hk|].
           intros fd' Hin. apply Hbefore. now right.
Qed.

(** Two definitions for "name": the input one comes first and decides. *)
Lemma filterData_is_first_definition_witness :
  let first := mkFilter "input" "name" None in
  let second := mkFilter "select" "name" None in
  let filters := Some [mkFilter "toggle" "active" None; first; second] in
  filterData filters "name" = Some first
  /\ matchFilter filters [("name", VStr "a")] [("name", VStr "Al")] "name" = Ok true.
Proof.
  intros first second filters. split; [|reflexivity].
  apply (proj2 (filterData_is_first_definition filters "name" first)).
  exists [mkFilter "toggle" "active" None], [second].
  split; [reflexivity|]. split; [reflexivity|].
  intros fd' [<-|[]]. discriminate.
Defined.

(** ** Rendering *)

Lemma occurs_dash_after (s d : string) : occurs "-" (s ++ String "-" d) = true.
Proof. induction s as [|c s IH]; simpl; [reflexivity | now rewrite IH, orb_true_r]. Qed.

Lemma dash_suffix_inj (s1 s2 d1 d2 : string) :
  occurs "-" d1 = false -> occurs "-" d2 = false ->
  (s1 ++ "-" ++ d1 = s2 ++ "-" ++ d2)%string ->
  s1 = s2 /\ d1 = d2.
Proof.
  intros H1 H2. revert s2; induction s1 as [|c s1 IH]; intros [|c2 s2] H; simpl in H.
  - now injection H.
  - injection H as Hc Hd. rewrite Hd, occurs_dash_after in H1. discriminate.
  - injection H as Hc Hd. rewrite <- Hd, occurs_dash_after in H2. discriminate.
  - injection H as -> Hr. destruct (IH s2 Hr) as [-> ->]. now split.
Qed.

Lemma In_mapi_from {A B : Type} (f : A -> nat -> B) (l : list A) (index : nat) (y : B) :
  In y (mapi_from index f l) ->
  exists x i, (index <= i)%nat /\ In x l /\ y = f x i.
Proof.
  revert index; induction l as [|x l IH]; intros index; simpl.
  - intros [].
  - intros [<-|Hin].
    + exists x, index. auto.
    + destruct (IH _ Hin) as [x' [i [Hi [Hx' ->]]]].
      exists x', i. split; [lia | auto].
Qed.

Lemma length_mapi_from {A B : Type} (f : A -> nat -> B) (l : list A) (index : nat) :
  List.length (mapi_from index f l) = List.length l.
Proof.
  revert index; induction l as [|x l IH]; intros index; simpl;
    [reflexivity | now rewrite IH].
Qed.

Lemma nth_error_mapi_from {A B : Type} (f : A -> nat -> B) (l : list A)
    (index i : nat) (x : A) :
  nth_error l i = Some x ->
  nth_error (mapi_from index f l) i = Some (f x (index + i)%nat).
Proof.
  revert index i; induction l as [|y l IH]; intros index [|i]; simpl; try discriminate.
  - intros [= ->]. now rewrite Nat.add_0_r.
  - intros H. rewrite (IH (S index) i H). do 2 f_equal. lia.
Qed.

Lemma rowReactKey_index rowKey item item' i j :
  rowReactKey rowKey item i = rowReactKey rowKey item' j -> i = j.
Proof.
  unfold rowReactKey. intros H.
  apply dash_suffix_inj in H; try apply indexString_without_dash.
  now apply indexString_inj.
Qed.

(** X19. The React keys of the body rows are pairwise distinct, one per
    row, whatever [getRowKey] gives: rows with the same key value, with
    [null] or with [undefined] still get distinct keys, through the row
    index. *)
Theorem rowReactKeys_are_distinct rowKey rows :
  NoDup (rowReactKeys rowKey rows)
  /\ List.length (rowReactKeys rowKey rows) = List.length rows
  /\ forall i item,
       nth_error rows i = Some item ->
       nth_error (rowReactKeys rowKey rows) i = Some (rowReactKey rowKey item i).
Proof.
  unfold rowReactKeys, Array_mapi.
  assert (Hnd : forall index, NoDup (mapi_from index (rowReactKey rowKey) rows)).
  { induction rows as [|item rows IH]; intros index; simpl; constructor.
    - intros Hin. apply In_mapi_from in Hin.
      destruct Hin as [item' [j [Hj [_ Heq]]]].
      apply rowReactKey_index in Heq. lia.
    - apply IH. }
  split; [apply Hnd|]. split; [apply length_mapi_from|].
  intros i item H. exact (nth_error_mapi_from _ _ 0%nat i item H).
Qed.

Lemma map_mapi_from {A B C : Type} (g : B -> C) (h : A -> C) (f : A -> nat -> B)
    (l : list A) (index : nat) :
  (forall x i, g (f x i) = h x) ->
  map g (mapi_from index f l) = map h l.
Proof.
  intros H. revert index; induction l as [|x l IH]; intros index; simpl.
  - reflexivity.
  - now rewrite H, IH.
Qed.

Lemma mapi_from_same {A B : Type} (f f' : A -> nat -> B) (l : list A) (index : nat) :
  (forall x i, In x l -> f x i = f' x i) ->
  mapi_from index f l = mapi_from index f' l.
Proof.
  revert index; induction l as [|x l IH]; intros index H; simpl.
  - reflexivity.
  - rewrite (H x index (or_introl eq_refl)).
    rewrite IH by (intros y i Hy; apply H; now right). reflexivity.
Qed.

(** X20. Header and body rows follow the same visibility test: a column
    gives a cell in the header exactly where it gives one in every body
    row, and the empty fragment elsewhere.  For columns without a [render]
    function a body row shows the fields of the visible columns only: two
    rows that agree on those fields render the same cells. *)
Theorem cells_follow_visibility (Display : Type) (text : string -> Display)
    (isVisible : Column -> bool)
    (render : Column -> option (value -> object -> Display))
    (item item' : object) (localColumns : list Column) :
  map isCol (headerCells Display text isVisible localColumns) = map isVisible localColumns
  /\ map isCol (bodyCells Display text isVisible render item localColumns)
     = map isVisible localColumns
  /\ ((forall column,
         In column localColumns -> isVisible column = true ->
         render column = None
         /\ get item (columnDataIndex column) = get item' (columnDataIndex column)) ->
      bodyCells Display text isVisible render item localColumns
      = bodyCells Display text isVisible render item' localColumns).
Proof.
  split; [|split].
  - unfold headerCells. rewrite map_map. apply map_ext.
    intros column. now destruct (isVisible column).
  - unfold bodyCells, Array_mapi. apply map_mapi_from.
    intros column i. now destruct (isVisible column).
  - intros H. unfold bodyCells, Array_mapi. apply mapi_from_same.
    intros column i Hin. destruct (isVisible column) eqn:V; [|reflexivity].
    destruct (H column Hin V) as [-> ->]. reflexivity.
Qed.

(** A hidden column "note": the header and the row have a cell for "name"
    and the fragment for "note"; rows that differ in "note" alone render
    alike. *)
Lemma cells_follow_visibility_witness :
  let columns := [mkColumn "Name" "c1" "name" VUndefined;
                  mkColumn "Note" "c2" "note" (VStr "false")] in
  let r1 := [("name", VStr "Al"); ("note", VStr "top secret")] in
  let r2 := [("name", VStr "Al"); ("note", VStr "public")] in
  headerCells string (fun s => s) FalsySet.isVisible columns
  = [Col "c1" "Name"; Fragment]
  /\ bodyCells string (fun s => s) FalsySet.isVisible (fun _ => None) r1 columns
     = [Col "c1-0" "Al"; Fragment]
  /\ bodyCells string (fun s => s) FalsySet.isVisible (fun _ => None) r1 columns
     = bodyCells string (fun s => s) FalsySet.isVisible (fun _ => None) r2 columns.
Proof.
  intros columns r1 r2. split; [reflexivity|]. split; [reflexivity|].
  apply (proj2 (proj2 (cells_follow_visibility string (fun s => s)
                         FalsySet.isVisible (fun _ => None) r1 r2 columns))).
  intros column [<-|[<-|[]]] V.
  - split; reflexivity.
  - discriminate V.
Defined.
